(** * nsls2.fitting.base.element: elements and xraylib quantity lookups

    A shallow embedding of [src/nsls2/fitting/base/element.py]: the
    classes [Element], [XrayLibWrap] and [XrayLibWrap_Energy].

    - A Python [str] is a string of code points below 256 (Basic Latin
      and Latin-1 Supplement): a character of [string] stands for its
      code point, and [str.lower] and [str.upper] are the case mappings
      of Python 3 on these code points. Code points above 255 are not
      modelled.
    - Python [float] values are IEEE 754 binary64 numbers ([float],
      Rocq's primitive floats), so [==], [<], [-] and [abs] are the
      hardware operations, NaN and signed zeros included.
    - A raised exception is the left injection of [result].
    - The tables [XRAYLIB_MAP] and [OTHER_VAL] come from
      [nsls2.fitting.base.element_data]; they are parameters of the
      development. *)

From Stdlib Require Import ZArith Ascii String Floats.
From stdpp Require Import base option list sorting gmap strings pretty.

Set Default Proof Using "Type".

(** ** Strings: [str.lower], [str.upper] and the order used by [sorted] *)

(** [c.lower()]: the capital letters 'A'-'Z' (65-90), and in Latin-1
    'À'-'Ö' (192-214) and 'Ø'-'Þ' (216-222), move up by 32. *)
Definition lower_char (c : ascii) : ascii :=
  let n := N_of_ascii c in
  if ((65 <=? n) && (n <=? 90) || (192 <=? n) && (n <=? 214)
      || (216 <=? n) && (n <=? 222))%N
  then ascii_of_N (n + 32) else c.

(** [c.upper()]: the small letters 'a'-'z' (97-122), 'à'-'ö' (224-246) and
    'ø'-'þ' (248-254) move down by 32, and 'ß' (223) becomes 'SS'. The
    upper-case forms of 'µ' (181) and 'ÿ' (255) are U+039C and U+0178,
    above 255: [None]. *)
Definition upper_char (c : ascii) : option string :=
  let n := N_of_ascii c in
  if ((97 <=? n) && (n <=? 122) || (224 <=? n) && (n <=? 246)
      || (248 <=? n) && (n <=? 254))%N
  then Some (String (ascii_of_N (n - 32)) EmptyString)
  else if (n =? 223)%N then Some "SS"
  else if ((n =? 181) || (n =? 255))%N then None
  else Some (String c EmptyString).

(** [s.lower()] *)
Fixpoint lower (s : string) : string :=
  match s with
  | EmptyString => EmptyString
  | String c s' => String (lower_char c) (lower s')
  end.

(** [s.upper()], where it stays below 256 *)
Fixpoint upper (s : string) : option string :=
  match s with
  | EmptyString => Some EmptyString
  | String c s' =>
      match upper_char c, upper s' with
      | Some u, Some us => Some (u +:+ us)
      | _, _ => None
      end
  end.

(** The string is ASCII: every code point is below 128. *)
Definition is_ascii_char (c : ascii) : bool := (N_of_ascii c <? 128)%N.

Fixpoint is_ascii (s : string) : bool :=
  match s with
  | EmptyString => true
  | String c s' => is_ascii_char c && is_ascii s'
  end.

(** [a < b] on [str]: lexicographic on the character codes. *)
Definition str_lt (s1 s2 : string) : Prop := String.le s1 s2 ∧ s1 ≠ s2.

(** [sorted(l)] for a list of [str]. *)
Definition sorted (l : list string) : list string := merge_sort String.le l.

(** ** Exceptions and results *)

(** A key of [OTHER_VAL]: an element symbol or an atomic number. *)
Inductive ident :=
  | IdStr (s : string)
  | IdInt (n : Z).

Inductive exn :=
  | KeyError (k : ident)        (* a failed dict subscription *)
  | TypeError                   (* a call with the wrong number of arguments *)
  | XrayLibError (n : Z).       (* whatever the xraylib function raises *)

Definition result (A : Type) : Type := exn + A.

Definition ret {A} (a : A) : result A := inr a.
Definition raise {A} (e : exn) : result A := inl e.
Definition bind {A B} (m : result A) (k : A → result B) : result B :=
  match m with
  | inl e => inl e
  | inr a => k a
  end.

Notation "'let!' x ':=' m 'in' k" := (bind m (fun x => k))
  (at level 10, x name, m at level 100, k at level 200).

(** The computation returns a value. *)
Definition is_ok {A} (r : result A) : Prop := ∃ a, r = inr a.

(** [[f(x) for x in l]], stopping at the first exception. *)
Fixpoint for_list {A B} (f : A → result B) (l : list A) : result (list B) :=
  match l with
  | [] => ret []
  | x :: l' => let! y := f x in let! ys := for_list f l' in ret (y :: ys)
  end.

(** [for x in l: acc = body(acc, x)], stopping at the first exception. *)
Fixpoint for_fold {A S} (body : S → A → result S) (acc : S) (l : list A)
  : result S :=
  match l with
  | [] => ret acc
  | x :: l' => let! acc' := body acc x in for_fold body acc' l'
  end.

Global Instance ident_eq_dec : EqDecision ident.
Proof. solve_decision. Defined.

Global Instance ident_countable : Countable ident.
Proof.
  refine (inj_countable'
    (λ i, match i with IdStr s => inl s | IdInt n => inr n end)
    (λ x, match x with inl s => IdStr s | inr n => IdInt n end) _).
  by intros [].
Defined.

(** [d[k]] on a dict. *)
Definition subscript {K} `{Countable K} {V} (inj : K → ident)
    (d : gmap K V) (k : K) : result V :=
  match d !! k with
  | Some v => ret v
  | None => raise (KeyError (inj k))
  end.

(** ** The result dict of [line_near]

    A [dict] that is filled by [out_dict[k] = v] and then returned: the
    pairs in insertion order, the order in which the dict is iterated. *)

Definition odict := list (string * float).

Fixpoint dict_setitem (d : odict) (k : string) (v : float) : odict :=
  match d with
  | [] => [(k, v)]
  | (k', v') :: d' =>
      if decide (k' = k) then (k', v) :: d' else (k', v') :: dict_setitem d' k v
  end.

Fixpoint dict_get (d : odict) (k : string) : option float :=
  match d with
  | [] => None
  | (k', v') :: d' => if decide (k' = k) then Some v' else dict_get d' k
  end.

(** ** The entries of [XRAYLIB_MAP] and [OTHER_VAL] *)

(** An xraylib function: [(Z, code)] or [(Z, code, incident_energy)]. *)
Inductive xfunc :=
  | Func2 (f : Z → Z → result float)
  | Func3 (f : Z → Z → float → result float).

Definition call2 (fn : xfunc) (z c : Z) : result float :=
  match fn with
  | Func2 f => f z c
  | Func3 _ => raise TypeError
  end.

Definition call3 (fn : xfunc) (z c : Z) (e : float) : result float :=
  match fn with
  | Func2 _ => raise TypeError
  | Func3 f => f z c e
  end.

(** A value of [OTHER_VAL]: the keys 'sym', 'Z', 'mass' and 'rho'. *)
Record elem_dict := mk_elem_dict {
  d_sym : string;
  d_Z : Z;
  d_mass : float;
  d_rho : float;
}.

(** ** class XrayLibWrap *)

(** [sorted(list(six.iterkeys(m)))] *)
Definition sorted_keys (m : gmap string Z) : list string :=
  sorted (map_to_list m).*1.

Record XrayLibWrap := mk_XrayLibWrap {
  _element : Z;
  info_type : string;
  _map : gmap string Z;
  _func : xfunc;
  _keys : list string;
}.

(** ** class XrayLibWrap_Energy(XrayLibWrap) *)

Record XrayLibWrap_Energy := mk_XrayLibWrap_Energy {
  super : XrayLibWrap;
  _incident_energy : float;
}.

(** ** class Element *)

Record Element := mk_Element {
  _name : string;
  _z : Z;
  _mass : float;
  _density : float;
  _emission_line : XrayLibWrap;
  _bind_energy : XrayLibWrap;
  _jump_factor : XrayLibWrap;
  _fluor_yield : XrayLibWrap;
}.

(** The methods that do not read the tables. *)

(** [XrayLibWrap.__getitem__] *)
Definition XrayLibWrap_getitem (self : XrayLibWrap) (key : string)
  : result float :=
  let! c := subscript IdStr (_map self) (lower key) in
  call2 (_func self) (_element self) c.

(** [XrayLibWrap.__iter__] *)
Definition XrayLibWrap_iter (self : XrayLibWrap) : list string := _keys self.

(** [XrayLibWrap.__len__] *)
Definition XrayLibWrap_len (self : XrayLibWrap) : nat := length (_keys self).

(** [Mapping.items]: [(key, self[key])] for every key of [__iter__]. *)
Definition XrayLibWrap_items (self : XrayLibWrap)
  : result (list (string * float)) :=
  for_list (λ k, let! v := XrayLibWrap_getitem self k in ret (k, v))
    (XrayLibWrap_iter self).

(** the [XrayLibWrap.all] property: [list(self.items())] *)
Definition XrayLibWrap_all (self : XrayLibWrap)
  : result (list (string * float)) :=
  XrayLibWrap_items self.

(** [XrayLibWrap_Energy.__getitem__], overriding the inherited one *)
Definition XrayLibWrap_Energy_getitem (self : XrayLibWrap_Energy)
    (key : string) : result float :=
  let! c := subscript IdStr (_map (super self)) (lower key) in
  call3 (_func (super self)) (_element (super self)) c (_incident_energy self).

(** [__iter__] and [__len__] are inherited. *)
Definition XrayLibWrap_Energy_iter (self : XrayLibWrap_Energy) : list string :=
  XrayLibWrap_iter (super self).

Definition XrayLibWrap_Energy_len (self : XrayLibWrap_Energy) : nat :=
  XrayLibWrap_len (super self).

(** [Mapping.items] and [all] are inherited and call the overriding
    [__getitem__]. *)
Definition XrayLibWrap_Energy_items (self : XrayLibWrap_Energy)
  : result (list (string * float)) :=
  for_list (λ k, let! v := XrayLibWrap_Energy_getitem self k in ret (k, v))
    (XrayLibWrap_Energy_iter self).

Definition XrayLibWrap_Energy_all (self : XrayLibWrap_Energy)
  : result (list (string * float)) :=
  XrayLibWrap_Energy_items self.

(** the [incident_energy] property and its setter *)
Definition incident_energy (self : XrayLibWrap_Energy) : float :=
  _incident_energy self.

Definition set_incident_energy (self : XrayLibWrap_Energy) (val : float)
  : XrayLibWrap_Energy :=
  mk_XrayLibWrap_Energy (super self) val.

(** Assigning the public attribute [info_type]. *)
Definition set_info_type (self : XrayLibWrap) (val : string) : XrayLibWrap :=
  mk_XrayLibWrap (_element self) val (_map self) (_func self) (_keys self).

(** The read-only properties of [Element]. *)
Definition Element_name (self : Element) : string := _name self.
Definition Element_Z (self : Element) : Z := _z self.
Definition Element_mass (self : Element) : float := _mass self.
Definition Element_density (self : Element) : float := _density self.
Definition Element_emission_line (self : Element) : XrayLibWrap :=
  _emission_line self.
Definition Element_bind_energy (self : Element) : XrayLibWrap :=
  _bind_energy self.
Definition Element_jump_factor (self : Element) : XrayLibWrap :=
  _jump_factor self.
Definition Element_fluor_yield (self : Element) : XrayLibWrap :=
  _fluor_yield self.

(** [Element.__eq__] and [Element.__lt__]; [functools.total_ordering]
    derives the other three from them. *)
Definition Element_eq (self other : Element) : bool :=
  (Element_Z self =? Element_Z other)%Z.
Definition Element_lt (self other : Element) : bool :=
  (Element_Z self <? Element_Z other)%Z.
Definition Element_le (self other : Element) : bool :=
  Element_lt self other || Element_eq self other.
Definition Element_gt (self other : Element) : bool :=
  negb (Element_lt self other || Element_eq self other).
Definition Element_ge (self other : Element) : bool :=
  negb (Element_lt self other).

(** ** The constructors and [line_near], over the two tables *)

Section Tables.

(** [XRAYLIB_MAP]: category name to (key-to-code dict, xraylib function). *)
Variable XRAYLIB_MAP : gmap string (gmap string Z * xfunc).
(** [OTHER_VAL]: lower-case symbol or atomic number to the element data. *)
Variable OTHER_VAL : gmap ident elem_dict.

(** [XrayLibWrap.__init__] *)
Definition XrayLibWrap_init (element : Z) (info_type : string)
  : result XrayLibWrap :=
  let! mf := subscript IdStr XRAYLIB_MAP info_type in
  ret (mk_XrayLibWrap element info_type mf.1 mf.2 (sorted_keys mf.1)).

(** [XrayLibWrap_Energy.__init__] *)
Definition XrayLibWrap_Energy_init (element : Z) (info_type : string)
    (incident_energy : float) : result XrayLibWrap_Energy :=
  let! base := XrayLibWrap_init element info_type in
  ret (mk_XrayLibWrap_Energy base incident_energy).

(** [Element.__init__]: "forcibly down-cast stringy inputs to lowercase" *)
Definition down_cast (element : ident) : ident :=
  match element with
  | IdStr s => IdStr (lower s)
  | IdInt n => IdInt n
  end.

Definition Element_init (element : ident) : result Element :=
  let element := down_cast element in
  let! elem_dict := subscript id OTHER_VAL element in
  let z := d_Z elem_dict in
  let! emission_line := XrayLibWrap_init z "lines" in
  let! bind_energy := XrayLibWrap_init z "binding_e" in
  let! jump_factor := XrayLibWrap_init z "jump" in
  let! fluor_yield := XrayLibWrap_init z "yield" in
  ret (mk_Element (d_sym elem_dict) z (d_mass elem_dict) (d_rho elem_dict)
         emission_line bind_energy jump_factor fluor_yield).

(** the [Element.cs] property, applied to an incident energy *)
Definition Element_cs (self : Element) (incident_energy : float)
  : result XrayLibWrap_Energy :=
  XrayLibWrap_Energy_init (_z self) "cs" incident_energy.

(** [self.cs(incident_energy)[k]]: a new lookup is made for each key. *)
Definition Element_cs_getitem (self : Element) (incident_energy : float)
    (k : string) : result float :=
  let! cs := Element_cs self incident_energy in
  XrayLibWrap_Energy_getitem cs k.

(** One turn of the loop of [line_near] on the pair [(k, v)]. *)
Definition line_near_body (self : Element) (energy delta_e
    incident_energy : float) (out_dict : odict) (k : string) (v : float)
  : result odict :=
  let! c := Element_cs_getitem self incident_energy k in
  if PrimFloat.eqb c 0 then ret out_dict
  else if PrimFloat.ltb (PrimFloat.abs (PrimFloat.sub v energy)) delta_e
       then ret (dict_setitem out_dict k v)
       else ret out_dict.

(** [Element.line_near]: [six.iteritems] yields [(k, self[k])] key by
    key, so the line energy of a key is computed before its cross
    section. *)
Definition Element_line_near (self : Element) (energy delta_e
    incident_energy : float) : result odict :=
  for_fold
    (λ out_dict k,
       let! v := XrayLibWrap_getitem (Element_emission_line self) k in
       line_near_body self energy delta_e incident_energy out_dict k v)
    [] (XrayLibWrap_iter (Element_emission_line self)).

(** The pair that [line_near] keeps for the key [k], if any, when the line
    energy and the cross section of [k] are both computed. *)
Definition line_near_keep (self : Element) (energy delta_e
    incident_energy : float) (k : string) : option (string * float) :=
  match XrayLibWrap_getitem (Element_emission_line self) k,
        Element_cs_getitem self incident_energy k with
  | inr v, inr c =>
      if PrimFloat.eqb c 0 then None
      else if PrimFloat.ltb (PrimFloat.abs (PrimFloat.sub v energy)) delta_e
           then Some (k, v)
           else None
  | _, _ => None
  end.

(** Modelled from the spec: the contents of [OTHER_VAL] and [XRAYLIB_MAP]
    are in [element_data.py], which is not among the sources. The spec has
    the reference table keyed by name or number and accepting
    case-normalized symbols, and a registry entry for each category: every
    element data dict of [OTHER_VAL] is filed under its atomic number and
    under its lower-case symbol, and [XRAYLIB_MAP] has the four categories
    of the lookups an element holds. *)
Definition table_consistent : Prop :=
  ∀ element d, OTHER_VAL !! element = Some d →
    OTHER_VAL !! IdInt (d_Z d) = Some d ∧
    OTHER_VAL !! IdStr (lower (d_sym d)) = Some d.

(** The first half of it. *)
Definition filed_under_number : Prop :=
  ∀ element d, OTHER_VAL !! element = Some d →
    OTHER_VAL !! IdInt (d_Z d) = Some d.

Definition categories_present : Prop :=
  ∀ cat, cat ∈ ["lines"; "binding_e"; "jump"; "yield"] →
    is_Some (XRAYLIB_MAP !! cat).

End Tables.

(** [sorted(elements)] on a list of [Element]: the sort compares with
    [__lt__] only and is stable. *)
Definition Element_not_gt (a b : Element) : Prop := Element_lt b a = false.

Global Instance Element_not_gt_dec : RelDecision Element_not_gt.
Proof. intros a b. unfold Element_not_gt. apply _. Defined.

Definition sorted_elements (l : list Element) : list Element :=
  merge_sort Element_not_gt l.

(** ** Quantity lookups of either class

    A lookup is an instance of [XrayLibWrap] or of its subclass
    [XrayLibWrap_Energy]; a method call is dispatched on the class. *)

Inductive object :=
  | Wrap (w : XrayLibWrap)
  | WrapEnergy (w : XrayLibWrap_Energy).

(** The attributes set by [XrayLibWrap.__init__]. *)
Definition object_base (o : object) : XrayLibWrap :=
  match o with
  | Wrap w => w
  | WrapEnergy w => super w
  end.

(** [o[key]] *)
Definition object_getitem (o : object) (key : string) : result float :=
  match o with
  | Wrap w => XrayLibWrap_getitem w key
  | WrapEnergy w => XrayLibWrap_Energy_getitem w key
  end.

(** [list(o)], the keys *)
Definition object_keys (o : object) : list string :=
  match o with
  | Wrap w => XrayLibWrap_iter w
  | WrapEnergy w => XrayLibWrap_Energy_iter w
  end.

(** [len(o)] *)
Definition object_len (o : object) : nat :=
  match o with
  | Wrap w => XrayLibWrap_len w
  | WrapEnergy w => XrayLibWrap_Energy_len w
  end.

(** [o.all] *)
Definition object_all (o : object) : result (list (string * float)) :=
  match o with
  | Wrap w => XrayLibWrap_all w
  | WrapEnergy w => XrayLibWrap_Energy_all w
  end.

(** [o.incident_energy = val]: the property setter of
    [XrayLibWrap_Energy]; on a plain [XrayLibWrap] the assignment makes an
    attribute that no method reads. *)
Definition object_set_incident_energy (o : object) (val : float) : object :=
  match o with
  | Wrap w => Wrap w
  | WrapEnergy w => WrapEnergy (set_incident_energy w val)
  end.

(** [o.info_type = val] *)
Definition object_set_info_type (o : object) (val : string) : object :=
  match o with
  | Wrap w => Wrap (set_info_type w val)
  | WrapEnergy w =>
      WrapEnergy (mk_XrayLibWrap_Energy (set_info_type (super w) val)
                    (_incident_energy w))
  end.

(** The lookup of a category for an element: [XrayLibWrap(element,
    info_type)], or [XrayLibWrap_Energy(element, info_type, e)] when an
    incident energy [e] is given. *)
Definition new_object (XRAYLIB_MAP : gmap string (gmap string Z * xfunc))
    (element : Z) (info_type : string) (incident_energy : option float)
  : result object :=
  match incident_energy with
  | None =>
      let! w := XrayLibWrap_init XRAYLIB_MAP element info_type in
      ret (Wrap w)
  | Some e =>
      let! w := XrayLibWrap_Energy_init XRAYLIB_MAP element info_type e in
      ret (WrapEnergy w)
  end.

(** ** Instances in a store

    Attribute assignment ([l.incident_energy = val], [l.info_type = val])
    changes the instance in place and is seen through every reference to
    it. A program is a function of the store; a reference is an address. *)

Abbreviation store := (gmap positive object).

Definition prog (A : Type) : Type := store → result (A * store).

Global Instance prog_ret : MRet prog := λ A a σ, ret (a, σ).
Global Instance prog_bind : MBind prog := λ A B k m σ,
  let! r := m σ in k r.1 r.2.

(** The value a program returns from a store. *)
Definition eval {A} (m : prog A) (σ : store) : result A :=
  let! r := m σ in ret r.1.

Definition lift {A} (r : result A) : prog A := λ σ,
  let! a := r in ret (a, σ).

Definition alloc (o : object) : prog positive := λ σ,
  let l := fresh (dom σ) in ret (l, <[l:=o]> σ).

(** Reading through a reference. A reference always points to an
    instance; an address outside the store is given [TypeError]. *)
Definition deref (l : positive) : prog object := λ σ,
  match σ !! l with
  | Some o => ret (o, σ)
  | None => raise TypeError
  end.

Definition update (l : positive) (o : object) : prog () := λ σ,
  ret ((), <[l:=o]> σ).

(** [l = XrayLibWrap(...)] or [l = XrayLibWrap_Energy(...)] *)
Definition new (XRAYLIB_MAP : gmap string (gmap string Z * xfunc))
    (element : Z) (info_type : string) (incident_energy : option float)
  : prog positive :=
  o ← lift (new_object XRAYLIB_MAP element info_type incident_energy);
  alloc o.

Definition obj_getitem (l : positive) (key : string) : prog float :=
  o ← deref l; lift (object_getitem o key).

Definition obj_keys (l : positive) : prog (list string) :=
  o ← deref l; mret (object_keys o).

Definition obj_len (l : positive) : prog nat :=
  o ← deref l; mret (object_len o).

Definition obj_all (l : positive) : prog (list (string * float)) :=
  o ← deref l; lift (object_all o).

Definition obj_set_incident_energy (l : positive) (val : float) : prog () :=
  o ← deref l; update l (object_set_incident_energy o val).

Definition obj_set_info_type (l : positive) (val : string) : prog () :=
  o ← deref l; update l (object_set_info_type o val).

(** The call of the function of the category that [o[key]] makes for a
    key filed under the code [c]: with the incident energy for
    [XrayLibWrap_Energy], without it for [XrayLibWrap]. *)
Definition lookup_call (fn : xfunc) (z : Z) (oe : option float) (c : Z)
  : result float :=
  match oe with
  | None => call2 fn z c
  | Some e => call3 fn z c e
  end.

(** The first of the given categories that [XRAYLIB_MAP] does not have. *)
Fixpoint first_missing (XRAYLIB_MAP : gmap string (gmap string Z * xfunc))
    (cats : list string) : option string :=
  match cats with
  | [] => None
  | cat :: cats' =>
      match XRAYLIB_MAP !! cat with
      | None => Some cat
      | Some _ => first_missing XRAYLIB_MAP cats'
      end
  end.

(** ** Methods that the lookups inherit from [collections.Mapping] *)

(** [key in o] ([Mapping.__contains__]): [o[key]] is tried; [KeyError]
    gives [False], any other exception is raised. *)
Definition object_contains (o : object) (key : string) : result bool :=
  match object_getitem o key with
  | inr _ => ret true
  | inl (KeyError _) => ret false
  | inl e => raise e
  end.

(** [o.get(key, default)] ([Mapping.get]): [o[key]], or [default] on
    [KeyError]; the default of [default] is [None]. *)
Definition object_get (o : object) (key : string) (default : option float)
  : result (option float) :=
  match object_getitem o key with
  | inr v => ret (Some v)
  | inl (KeyError _) => ret default
  | inl e => raise e
  end.

(** ** [Element.__repr__]

    ['Element name %s with atomic Z %s' % (self.name, self._z)]; [%s] of
    an [int] is its decimal numeral. *)
Definition Element_repr (self : Element) : string :=
  "Element name " +:+ Element_name self +:+ " with atomic Z "
    +:+ pretty (_z self).

(** No space occurs in the string. *)
Definition space_free (p : string) : Prop :=
  ∀ s t, p ≠ s +:+ String " " t.

(** ** A small instance of the tables *)

Module Sample.

(** Modelled from the spec: [nsls2.fitting.base.element_data] is not among
    the sources. These are two tables of the shape the spec gives them
    (a key-to-code dict and a function per category; element data keyed by
    lower-case symbol and by atomic number), cut down to three lines, two
    shells and three elements, with made-up values. They serve to evaluate
    the definitions at concrete inputs. *)
Definition line_dict : gmap string Z :=
  list_to_map [("kb1", 2); ("ka1", 0); ("ka2", 1)]%Z.

Definition shell_dict : gmap string Z :=
  list_to_map [("l1", 1); ("k", 0)]%Z.

Definition LineEnergy (z c : Z) : result float :=
  match c with
  | 0%Z => ret 8.5%float
  | 1%Z => ret 8.25%float
  | 2%Z => ret 9.5%float
  | _ => raise (XrayLibError c)
  end.

(** No fluorescence below the line energy plus one. *)
Definition CS_FluorLine (z c : Z) (e : float) : result float :=
  let! line := LineEnergy z c in
  if PrimFloat.ltb e (PrimFloat.add line 1) then ret 0%float
  else ret 1.5%float.

Definition EdgeEnergy (z c : Z) : result float := ret 9.75%float.
Definition JumpFactor (z c : Z) : result float := ret 7.5%float.
Definition FluorYield (z c : Z) : result float := ret 0.5%float.

Definition XRAYLIB_MAP : gmap string (gmap string Z * xfunc) :=
  list_to_map
    [("lines", (line_dict, Func2 LineEnergy));
     ("cs", (line_dict, Func3 CS_FluorLine));
     ("binding_e", (shell_dict, Func2 EdgeEnergy));
     ("jump", (shell_dict, Func2 JumpFactor));
     ("yield", (shell_dict, Func2 FluorYield))].

Definition elm_data_list : list elem_dict :=
  [mk_elem_dict "Fe" 26 55.75 7.875;
   mk_elem_dict "Cu" 29 63.5 9;
   mk_elem_dict "Zn" 30 65.375 7.125]%float.

Definition OTHER_VAL : gmap ident elem_dict :=
  list_to_map
    (flat_map (λ d, [(IdInt (d_Z d), d); (IdStr (lower (d_sym d)), d)])
       elm_data_list).

Definition line_keys : list string := ["ka1"; "ka2"; "kb1"].

(** [XrayLibWrap(30, 'lines')], [XrayLibWrap_Energy(30, 'cs', 5.0)] and
    [XrayLibWrap_Energy(26, 'cs', 10.0)] *)
Definition zn_lines : object :=
  Wrap (mk_XrayLibWrap 30 "lines" line_dict (Func2 LineEnergy) line_keys).

Definition zn_cs_5 : XrayLibWrap_Energy :=
  mk_XrayLibWrap_Energy
    (mk_XrayLibWrap 30 "cs" line_dict (Func3 CS_FluorLine) line_keys) 5.

Definition zn_cs : object := WrapEnergy zn_cs_5.

Definition fe_cs : object :=
  WrapEnergy
    (mk_XrayLibWrap_Energy
       (mk_XrayLibWrap 26 "cs" line_dict (Func3 CS_FluorLine) line_keys) 10).

(** [Element('Zn')] *)
Definition zn : Element :=
  mk_Element "Zn" 30 65.375 7.125
    (mk_XrayLibWrap 30 "lines" line_dict (Func2 LineEnergy) line_keys)
    (mk_XrayLibWrap 30 "binding_e" shell_dict (Func2 EdgeEnergy) ["k"; "l1"])
    (mk_XrayLibWrap 30 "jump" shell_dict (Func2 JumpFactor) ["k"; "l1"])
    (mk_XrayLibWrap 30 "yield" shell_dict (Func2 FluorYield) ["k"; "l1"]).

(** A registry whose key-to-code dict has a key that is not lower-case. *)
Definition mixed_case_map : gmap string (gmap string Z * xfunc) :=
  list_to_map [("lines", (list_to_map [("Ka1", 0%Z)], Func2 LineEnergy))].

(** A store with two cross-section lookups. *)
Definition two_lookups : store :=
  <[1%positive:=zn_cs]> (<[2%positive:=fe_cs]> ∅).

(** Registries without the category 'jump' and without 'cs'. *)
Definition no_jump_map : gmap string (gmap string Z * xfunc) :=
  delete "jump" XRAYLIB_MAP.

Definition no_cs_map : gmap string (gmap string Z * xfunc) :=
  delete "cs" XRAYLIB_MAP.

(** A registry in which the line 'ka2' has a code that [LineEnergy]
    rejects, and [Element('Zn')] over it. *)
Definition partial_dict : gmap string Z :=
  list_to_map [("kb1", 2); ("ka1", 0); ("ka2", 7)]%Z.

Definition partial_map : gmap string (gmap string Z * xfunc) :=
  <["lines":=(partial_dict, Func2 LineEnergy)]> XRAYLIB_MAP.

Definition zn_partial_lines : object :=
  Wrap (mk_XrayLibWrap 30 "lines" partial_dict (Func2 LineEnergy) line_keys).

Definition zn_partial : Element :=
  mk_Element "Zn" 30 65.375 7.125
    (mk_XrayLibWrap 30 "lines" partial_dict (Func2 LineEnergy) line_keys)
    (mk_XrayLibWrap 30 "binding_e" shell_dict (Func2 EdgeEnergy) ["k"; "l1"])
    (mk_XrayLibWrap 30 "jump" shell_dict (Func2 JumpFactor) ["k"; "l1"])
    (mk_XrayLibWrap 30 "yield" shell_dict (Func2 FluorYield) ["k"; "l1"]).

(** [Element(29)] *)
Definition cu : Element :=
  mk_Element "Cu" 29 63.5 9
    (mk_XrayLibWrap 29 "lines" line_dict (Func2 LineEnergy) line_keys)
    (mk_XrayLibWrap 29 "binding_e" shell_dict (Func2 EdgeEnergy) ["k"; "l1"])
    (mk_XrayLibWrap 29 "jump" shell_dict (Func2 JumpFactor) ["k"; "l1"])
    (mk_XrayLibWrap 29 "yield" shell_dict (Func2 FluorYield) ["k"; "l1"]).

(** The string 'ß' (code point 223), a registry whose dict of lines has
    it as its one key, and [XrayLibWrap(30, 'lines')] over it. *)
Definition sharp_s : string := String "223" EmptyString.



(** [XrayLibWrap(30, 'lines')] over the registry with the key 'Ka1'. *)
Definition mixed_case_lines : object :=
  Wrap (mk_XrayLibWrap 30 "lines" (list_to_map [("Ka1", 0%Z)])
          (Func2 LineEnergy) ["Ka1"]).

(** A registry whose dict of lines has an entry that is not lower-case
    next to its lower-case form. *)
Definition shadowed_map : gmap string (gmap string Z * xfunc) :=
  list_to_map
    [("lines", (list_to_map [("Ka1", 1%Z); ("ka1", 0%Z)], Func2 LineEnergy))].

End Sample.

(** ** Case mapping *)

Lemma lower_lower_char (c : ascii) : lower_char (lower_char c) = lower_char c.
Proof. by destruct c as [[] [] [] [] [] [] [] []]. Qed.

Lemma lower_lower (s : string) : lower (lower s) = lower s.
Proof. induction s as [|c s IH]; simpl; [done|]. by rewrite lower_lower_char, IH. Qed.

(** An ASCII character has one upper-case character, which is lower-cased
    to the same character as it is. *)
Lemma upper_char_ascii (c : ascii) :
  is_ascii_char c = true →
  ∃ c', upper_char c = Some (String c' EmptyString) ∧
        lower_char c' = lower_char c.
Proof.
  destruct c as [[] [] [] [] [] [] [] []]; intros Hc; try discriminate Hc;
    by eexists.
Qed.

Lemma upper_ascii (s : string) :
  is_ascii s = true → ∃ s', upper s = Some s' ∧ lower s' = lower s.
Proof.
  induction s as [|c s IH]; simpl; [by exists EmptyString|].
  intros [Hc Hs]%andb_prop.
  destruct (upper_char_ascii c Hc) as (c' & -> & Hc').
  destruct (IH Hs) as (s' & -> & Hs').
  exists (String c' s'). split; [done|]. simpl. by rewrite Hc', Hs'.
Qed.

(** ** Float comparisons *)

Lemma float_eqb_not_ltb (x y : float) :
  PrimFloat.eqb x y = true → PrimFloat.ltb x y = false.
Proof.
  rewrite FloatAxioms.eqb_spec, FloatAxioms.ltb_spec. unfold SFeqb, SFltb.
  by destruct (SFcompare (Prim2SF x) (Prim2SF y)) as [[]|].
Qed.

(** ** The result monad *)

Lemma bind_inr {A B} (m : result A) (k : A → result B) (b : B) :
  bind m k = inr b ↔ ∃ a, m = inr a ∧ k a = inr b.
Proof.
  destruct m as [e|a]; simpl; split.
  - discriminate.
  - intros (a & Ha & _). discriminate.
  - eauto.
  - by intros (a' & [= <-] & Hk).
Qed.

Lemma subscript_inr {K} `{Countable K} {V} (inj : K → ident) (d : gmap K V)
    (k : K) (v : V) :
  subscript inj d k = inr v ↔ d !! k = Some v.
Proof.
  unfold subscript, ret, raise. destruct (d !! k); split; congruence.
Qed.

Lemma subscript_None {K} `{Countable K} {V} (inj : K → ident) (d : gmap K V)
    (k : K) :
  d !! k = None → subscript inj d k = inl (KeyError (inj k)).
Proof. unfold subscript. by intros ->. Qed.

Section for_list.
Context {A B : Type} (f : A → result B).

Lemma for_list_inr (l : list A) (ys : list B) :
  for_list f l = inr ys ↔ Forall2 (λ x y, f x = inr y) l ys.
Proof.
  revert ys. induction l as [|x l IH]; intros ys; simpl.
  - split.
    + intros [= <-]. constructor.
    + by intros ->%Forall2_nil_inv_l.
  - rewrite bind_inr. split.
    + intros (y & Hy & Hrest). apply bind_inr in Hrest as (ys' & Hys' & [= <-]).
      constructor; [done|]. by apply IH.
    + intros (y & ys' & Hy & Hys' & ->)%Forall2_cons_inv_l.
      exists y. split; [done|]. apply bind_inr. exists ys'.
      split; [by apply IH|done].
Qed.

Lemma for_list_ok (l : list A) :
  (∀ x, x ∈ l → is_ok (f x)) → is_ok (for_list f l).
Proof.
  induction l as [|x l IH]; intros Hl; simpl.
  - by eexists.
  - destruct (Hl x) as [y Hy]; [left|]. rewrite Hy. simpl.
    destruct IH as [ys Hys].
    { intros x' Hx'. apply Hl. by right. }
    rewrite Hys. by eexists.
Qed.

End for_list.

(** ** [sorted] and the keys of a lookup *)

Lemma sorted_Permutation (l : list string) : sorted l ≡ₚ l.
Proof. apply merge_sort_Permutation. Qed.

Lemma sorted_StronglySorted (l : list string) :
  StronglySorted String.le (sorted l).
Proof. apply (StronglySorted_merge_sort _). Qed.

(** The order in which the dict hands out its keys does not show in the
    sorted list. *)
Lemma sorted_order_irrelevant (l1 l2 : list string) :
  l1 ≡ₚ l2 → sorted l1 = sorted l2.
Proof.
  intros Hp. apply (Sorted_unique String.le).
  - apply (Sorted_merge_sort _).
  - apply (Sorted_merge_sort _).
  - by rewrite !sorted_Permutation.
Qed.

Lemma StronglySorted_str_lt (l : list string) :
  StronglySorted String.le l → NoDup l → StronglySorted str_lt l.
Proof.
  induction 1 as [|x l Hl IH Hx]; [constructor|].
  intros [Hnotin Hnd]%NoDup_cons. constructor; [by apply IH|].
  apply Forall_forall. intros y Hy. split.
  - by eapply Forall_forall in Hx.
  - by intros ->.
Qed.

Lemma StronglySorted_sublist {A} (R : relation A) (l1 l2 : list A) :
  l1 `sublist_of` l2 → StronglySorted R l2 → StronglySorted R l1.
Proof.
  induction 1 as [|x l1 l2 Hsub IH|x l1 l2 Hsub IH];
    intros Hs; [done|..].
  - apply StronglySorted_inv in Hs as [Hs Hx]. constructor; [by apply IH|].
    eapply Forall_forall. intros y Hy. eapply Forall_forall in Hx; [done|].
    by eapply elem_of_sublist.
  - apply StronglySorted_inv in Hs as [Hs _]. by apply IH.
Qed.

Lemma sorted_keys_elem_of (m : gmap string Z) (k : string) :
  k ∈ sorted_keys m ↔ is_Some (m !! k).
Proof.
  unfold sorted_keys. rewrite sorted_Permutation, list_elem_of_fmap. split.
  - intros ([k' c] & -> & Hin). apply elem_of_map_to_list in Hin. by exists c.
  - intros [c Hc]. exists (k, c). split; [done|]. by apply elem_of_map_to_list.
Qed.

Lemma sorted_keys_NoDup (m : gmap string Z) : NoDup (sorted_keys m).
Proof.
  unfold sorted_keys. rewrite sorted_Permutation.
  apply NoDup_fst_map_to_list.
Qed.

Lemma sorted_keys_str_lt (m : gmap string Z) :
  StronglySorted str_lt (sorted_keys m).
Proof.
  apply StronglySorted_str_lt; [apply sorted_StronglySorted|].
  apply sorted_keys_NoDup.
Qed.

(** ** Construction *)

Section Construction.
Variable XRAYLIB_MAP : gmap string (gmap string Z * xfunc).

Lemma XrayLibWrap_init_inr (z : Z) (cat : string) (w : XrayLibWrap) :
  XrayLibWrap_init XRAYLIB_MAP z cat = inr w ↔
  ∃ m f, XRAYLIB_MAP !! cat = Some (m, f) ∧
         w = mk_XrayLibWrap z cat m f (sorted_keys m).
Proof.
  unfold XrayLibWrap_init. rewrite bind_inr. split.
  - intros ([m f] & Hs%subscript_inr & [= <-]). by exists m, f.
  - intros (m & f & Hs & ->). exists (m, f). by rewrite subscript_inr.
Qed.

Lemma XrayLibWrap_Energy_init_inr (z : Z) (cat : string) (e : float)
    (w : XrayLibWrap_Energy) :
  XrayLibWrap_Energy_init XRAYLIB_MAP z cat e = inr w ↔
  ∃ b, XrayLibWrap_init XRAYLIB_MAP z cat = inr b ∧
       w = mk_XrayLibWrap_Energy b e.
Proof.
  unfold XrayLibWrap_Energy_init. rewrite bind_inr. split.
  - intros (b & Hb & [= <-]). by exists b.
  - intros (b & Hb & ->). by exists b.
Qed.

Lemma new_object_inr (z : Z) (cat : string) (oe : option float) (o : object) :
  new_object XRAYLIB_MAP z cat oe = inr o ↔
  ∃ m f, XRAYLIB_MAP !! cat = Some (m, f) ∧
    o = match oe with
        | None => Wrap (mk_XrayLibWrap z cat m f (sorted_keys m))
        | Some e =>
            WrapEnergy (mk_XrayLibWrap_Energy
                          (mk_XrayLibWrap z cat m f (sorted_keys m)) e)
        end.
Proof.
  unfold new_object. destruct oe as [e|]; rewrite bind_inr; split.
  - intros (w & (b & (m & f & Hm & ->)%XrayLibWrap_init_inr & ->)
              %XrayLibWrap_Energy_init_inr & [= <-]). by exists m, f.
  - intros (m & f & Hm & ->). eexists. split; [|done].
    apply XrayLibWrap_Energy_init_inr. eexists. split; [|done].
    apply XrayLibWrap_init_inr. by exists m, f.
  - intros (w & (m & f & Hm & ->)%XrayLibWrap_init_inr & [= <-]).
    by exists m, f.
  - intros (m & f & Hm & ->). eexists. split; [|done].
    apply XrayLibWrap_init_inr. by exists m, f.
Qed.

Lemma new_object_keys (z : Z) (cat : string) (oe : option float) (o : object) :
  new_object XRAYLIB_MAP z cat oe = inr o →
  ∃ m f, XRAYLIB_MAP !! cat = Some (m, f) ∧ _map (object_base o) = m ∧
         object_keys o = sorted_keys m.
Proof.
  intros (m & f & Hm & ->)%new_object_inr. exists m, f.
  by destruct oe.
Qed.

End Construction.

(** ** [Mapping.items] *)

Section items.
Context (get : string → result float).

Let item (k : string) : result (string * float) :=
  let! v := get k in ret (k, v).

Lemma item_inr (k : string) (kv : string * float) :
  item k = inr kv ↔ kv.1 = k ∧ get k = inr kv.2.
Proof.
  unfold item. rewrite bind_inr. split.
  - by intros (v & Hv & [= <-]).
  - destruct kv as [k' v]. simpl. intros [-> Hv]. by exists v.
Qed.

Lemma items_inr (ks : list string) (l : list (string * float)) :
  for_list item ks = inr l ↔
  l.*1 = ks ∧ Forall (λ kv, get kv.1 = inr kv.2) l.
Proof.
  rewrite for_list_inr. split.
  - induction 1 as [|k kv ks l Hitem _ [IHk IHv]]; [done|].
    apply item_inr in Hitem as [Hk Hv].
    split; [by rewrite fmap_cons, Hk, IHk|].
    constructor; [by rewrite Hk|done].
  - intros [<- Hall]. induction Hall as [|kv l Hv _ IH]; [constructor|].
    rewrite fmap_cons. constructor; [by apply item_inr|done].
Qed.

Lemma items_ok (ks : list string) :
  (∀ k, k ∈ ks → is_ok (get k)) → is_ok (for_list item ks).
Proof.
  intros Hks. apply for_list_ok. intros k [v Hv]%Hks.
  exists (k, v). unfold item. by rewrite Hv.
Qed.

End items.

Lemma object_all_inr (o : object) (l : list (string * float)) :
  object_all o = inr l ↔
  l.*1 = object_keys o ∧ Forall (λ kv, object_getitem o kv.1 = inr kv.2) l.
Proof. destruct o; apply items_inr. Qed.

Lemma object_len_keys (o : object) : object_len o = length (object_keys o).
Proof. by destruct o. Qed.

(** ** Keys and values of a lookup *)

Section Lookups.
Variable XRAYLIB_MAP : gmap string (gmap string Z * xfunc).

(** C5. For a lookup of any category, with or without incident energy,
    [o[key]] with a key whose lower-case form is not among the keys of the
    category raises [KeyError]: no value is returned in its place. *)
Theorem getitem_unknown_key (z : Z) (cat : string) (oe : option float)
    (o : object) (key : string) :
  new_object XRAYLIB_MAP z cat oe = inr o →
  lower key ∉ object_keys o →
  object_getitem o key = inl (KeyError (IdStr (lower key))).
Proof.
  intros (m & f & _ & Hmap & Hkeys)%new_object_keys Hnotin.
  rewrite Hkeys, sorted_keys_elem_of, <-eq_None_not_Some in Hnotin.
  subst m. destruct o as [w|w]; simpl in *;
    unfold XrayLibWrap_getitem, XrayLibWrap_Energy_getitem;
    by rewrite (subscript_None _ _ _ Hnotin).
Qed.

(** C6. The keys of a lookup are sorted in strictly increasing
    lexicographic order, hence free of duplicates; they are the keys of
    the key-to-code dict of the category, in an order that does not depend
    on the order in which that dict hands them out; two lookups of one
    category, for whatever elements and incident energies, have the same
    keys. *)
Theorem keys_sorted_by_category (cat : string) (z1 z2 : Z)
    (oe1 oe2 : option float) (o1 o2 : object) :
  new_object XRAYLIB_MAP z1 cat oe1 = inr o1 →
  new_object XRAYLIB_MAP z2 cat oe2 = inr o2 →
  object_keys o1 = object_keys o2 ∧
  StronglySorted str_lt (object_keys o1) ∧
  NoDup (object_keys o1) ∧
  (∀ k, k ∈ object_keys o1 ↔ is_Some (_map (object_base o1) !! k)) ∧
  (∀ l, l ≡ₚ (map_to_list (_map (object_base o1))).*1 →
        sorted l = object_keys o1).
Proof.
  intros (m & f & Hcat & Hmap & Hkeys)%new_object_keys
         (m' & f' & Hcat' & _ & Hkeys')%new_object_keys.
  rewrite Hcat in Hcat'. injection Hcat' as <- <-.
  rewrite Hkeys, Hkeys', Hmap. split_and!.
  - done.
  - apply sorted_keys_str_lt.
  - apply sorted_keys_NoDup.
  - apply sorted_keys_elem_of.
  - intros l Hl. by apply sorted_order_irrelevant.
Qed.

End Lookups.

(** C7. When [o[k]] returns for every key [k] of the lookup, [o.all]
    returns a list of [len(o)] pairs whose keys are the keys of the lookup
    in their order and whose values are the values of [o[k]]. *)
Theorem all_items (o : object) :
  (∀ k, k ∈ object_keys o → is_ok (object_getitem o k)) →
  ∃ l, object_all o = inr l ∧
       length l = object_len o ∧
       l.*1 = object_keys o ∧
       Forall (λ kv, kv.1 ∈ object_keys o ∧
                     object_getitem o kv.1 = inr kv.2) l.
Proof.
  intros Hok.
  assert (is_ok (object_all o)) as [l Hl].
  { destruct o; by apply items_ok. }
  exists l. split; [done|].
  apply object_all_inr in Hl as [Hkeys Hvals]. split_and!; [|done|].
  - by rewrite object_len_keys, <-Hkeys, length_fmap.
  - apply Forall_forall. intros kv Hkv. split.
    + rewrite <-Hkeys. apply list_elem_of_fmap. by exists kv.
    + by eapply Forall_forall in Hvals.
Qed.

(** *** Lookups of the sample tables *)

Lemma getitem_unknown_key_witness :
  new_object Sample.XRAYLIB_MAP 30 "lines" None = inr Sample.zn_lines ∧
  (lower "Kc9" ∉ object_keys Sample.zn_lines) ∧
  object_getitem Sample.zn_lines "Kc9" = inl (KeyError (IdStr "kc9")).
Proof.
  assert (new_object Sample.XRAYLIB_MAP 30 "lines" None
          = inr Sample.zn_lines) as Hnew by (vm_compute; reflexivity).
  assert (lower "Kc9" ∉ object_keys Sample.zn_lines) as Hkey
    by (apply (bool_decide_unpack _); vm_compute; exact I).
  split_and!; [done..|].
  exact (getitem_unknown_key Sample.XRAYLIB_MAP 30 "lines" None
           Sample.zn_lines "Kc9" Hnew Hkey).
Defined.

Lemma keys_sorted_by_category_witness :
  new_object Sample.XRAYLIB_MAP 30 "cs" (Some 5%float) = inr Sample.zn_cs ∧
  new_object Sample.XRAYLIB_MAP 26 "cs" (Some 10%float) = inr Sample.fe_cs ∧
  object_keys Sample.zn_cs = object_keys Sample.fe_cs ∧
  StronglySorted str_lt (object_keys Sample.zn_cs).
Proof.
  assert (new_object Sample.XRAYLIB_MAP 30 "cs" (Some 5%float)
          = inr Sample.zn_cs) as H1 by (vm_compute; reflexivity).
  assert (new_object Sample.XRAYLIB_MAP 26 "cs" (Some 10%float)
          = inr Sample.fe_cs) as H2 by (vm_compute; reflexivity).
  split_and!; [done..| |];
    apply (keys_sorted_by_category Sample.XRAYLIB_MAP "cs" 30 26
             (Some 5%float) (Some 10%float) _ _ H1 H2).
Defined.

Lemma all_items_witness :
  (∀ k, k ∈ object_keys Sample.fe_cs →
        is_ok (object_getitem Sample.fe_cs k)) ∧
  ∃ l, object_all Sample.fe_cs = inr l ∧
       length l = object_len Sample.fe_cs ∧
       l.*1 = object_keys Sample.fe_cs ∧
       Forall (λ kv, kv.1 ∈ object_keys Sample.fe_cs ∧
                     object_getitem Sample.fe_cs kv.1 = inr kv.2) l.
Proof.
  assert (∀ k, k ∈ object_keys Sample.fe_cs →
               is_ok (object_getitem Sample.fe_cs k)) as Hok.
  { intros k Hk. simpl in Hk. unfold XrayLibWrap_Energy_iter in Hk.
    simpl in Hk. unfold Sample.line_keys in Hk.
    apply elem_of_cons in Hk as [->|Hk]; [by eexists|].
    apply elem_of_cons in Hk as [->|Hk]; [by eexists|].
    apply list_elem_of_singleton in Hk as ->. by eexists. }
  split; [done|]. exact (all_items Sample.fe_cs Hok).
Defined.

(** [all] raises what [self[k]] raises: a key of the dict that is not
    lower-case is not found under its lower-case form. *)
Example all_mixed_case_key :
  (let! o := new_object Sample.mixed_case_map 30 "lines" None in
   object_all o) = inl (KeyError (IdStr "ka1")).
Proof. vm_compute. reflexivity. Qed.

Example all_items_fe_cs :
  object_all Sample.fe_cs
    = inr [("ka1", 1.5%float); ("ka2", 1.5%float); ("kb1", 0%float)].
Proof. by vm_compute. Qed.

(** ** The result dict *)

Lemma dict_setitem_fresh (d : odict) (k : string) (v : float) :
  k ∉ d.*1 → dict_setitem d k v = d ++ [(k, v)].
Proof.
  induction d as [|[k' v'] d IH]; simpl; [done|].
  intros [Hne Hnotin]%not_elem_of_cons.
  rewrite decide_False by done. by rewrite IH.
Qed.

Lemma filter_iff_elem_of {A} (P1 P2 : A → Prop)
    `{!∀ x, Decision (P1 x), !∀ x, Decision (P2 x)} (l : list A) :
  (∀ x, x ∈ l → P1 x ↔ P2 x) → filter P1 l = filter P2 l.
Proof.
  induction l as [|a l IH]; intros Hiff; [done|].
  assert (filter P1 l = filter P2 l) as Hl.
  { apply IH. intros x Hx. apply Hiff. by right. }
  destruct (decide (P1 a)) as [Ha|Ha].
  - rewrite !filter_cons_True; [by rewrite Hl|by apply Hiff; [left|]|done].
  - rewrite !filter_cons_False; [done| |done].
    intros Ha'. apply Ha, Hiff; [left|done].
Qed.

Section keep.
Context (keep : string → option (string * float)).
Hypothesis keep_key : ∀ k kv, keep k = Some kv → kv.1 = k.

Lemma dict_get_omap (l : list string) (k : string) :
  dict_get (omap keep l) k = if decide (k ∈ l) then snd <$> keep k else None.
Proof using keep_key.
  induction l as [|x l IH]; csimpl; [done|].
  destruct (keep x) as [[k' v]|] eqn:Hx; csimpl.
  - apply keep_key in Hx as Hk. simpl in Hk. subst k'.
    destruct (decide (x = k)) as [->|Hne].
    + rewrite decide_True by left. by rewrite Hx.
    + rewrite IH. destruct (decide (k ∈ l)) as [Hin|Hnotin].
      * rewrite decide_True; [done|by right].
      * rewrite decide_False; [done|]. by intros [->|?]%elem_of_cons.
  - rewrite IH. destruct (decide (x = k)) as [->|Hne].
    + rewrite Hx. rewrite (decide_True (P := k ∈ k :: l)) by left.
      by destruct (decide (k ∈ l)).
    + destruct (decide (k ∈ l)) as [Hin|Hnotin].
      * rewrite decide_True; [done|by right].
      * rewrite decide_False; [done|]. by intros [->|?]%elem_of_cons.
Qed.

Lemma fst_omap_filter (l : list string) :
  (omap keep l).*1 = filter (λ k, is_Some (keep k)) l.
Proof using keep_key.
  induction l as [|x l IH]; csimpl; [done|].
  destruct (keep x) as [kv|] eqn:Hx.
  - rewrite filter_cons_True by (by rewrite Hx).
    rewrite fmap_cons, IH. by rewrite (keep_key _ _ Hx).
  - rewrite filter_cons_False; [done|]. rewrite Hx. by intros [? ?].
Qed.

End keep.

(** ** [Element] *)

Section Elements.
Variable XRAYLIB_MAP : gmap string (gmap string Z * xfunc).
Variable OTHER_VAL : gmap ident elem_dict.

Lemma Element_init_inr (element : ident) (self : Element) :
  Element_init XRAYLIB_MAP OTHER_VAL element = inr self ↔
  ∃ d l b j y,
    OTHER_VAL !! down_cast element = Some d ∧
    XrayLibWrap_init XRAYLIB_MAP (d_Z d) "lines" = inr l ∧
    XrayLibWrap_init XRAYLIB_MAP (d_Z d) "binding_e" = inr b ∧
    XrayLibWrap_init XRAYLIB_MAP (d_Z d) "jump" = inr j ∧
    XrayLibWrap_init XRAYLIB_MAP (d_Z d) "yield" = inr y ∧
    self = mk_Element (d_sym d) (d_Z d) (d_mass d) (d_rho d) l b j y.
Proof.
  unfold Element_init. split.
  - intros (d & Hd%subscript_inr & (l & Hl & (b & Hb & (j & Hj & (y & Hy & H)
      %bind_inr)%bind_inr)%bind_inr)%bind_inr)%bind_inr.
    injection H as <-. by exists d, l, b, j, y.
  - intros (d & l & b & j & y & Hd & Hl & Hb & Hj & Hy & ->).
    apply (subscript_inr id) in Hd. rewrite Hd. simpl.
    rewrite Hl. simpl. rewrite Hb. simpl. rewrite Hj. simpl.
    by rewrite Hy.
Qed.

Lemma Element_init_emission_line (element : ident) (self : Element) :
  Element_init XRAYLIB_MAP OTHER_VAL element = inr self →
  ∃ m, XrayLibWrap_iter (Element_emission_line self) = sorted_keys m.
Proof.
  intros (d & l & b & j & y & _ & (m & f & _ & ->)%XrayLibWrap_init_inr
            & _ & _ & _ & ->)%Element_init_inr.
  by exists m.
Qed.

Section line_near.
Context (self : Element) (energy delta_e incident_energy : float).

Let line (k : string) : result float :=
  XrayLibWrap_getitem (Element_emission_line self) k.
Let cs (k : string) : result float :=
  Element_cs_getitem XRAYLIB_MAP self incident_energy k.
Let keep : string → option (string * float) :=
  line_near_keep XRAYLIB_MAP self energy delta_e incident_energy.
Let body (out_dict : odict) (k : string) : result odict :=
  let! v := line k in
  line_near_body XRAYLIB_MAP self energy delta_e incident_energy out_dict k v.

Lemma line_near_keep_key (k : string) (kv : string * float) :
  keep k = Some kv → kv.1 = k.
Proof.
  unfold keep, line_near_keep.
  destruct (XrayLibWrap_getitem _ _) as [|v]; [done|].
  destruct (Element_cs_getitem _ _ _ _) as [|c]; [done|].
  destruct (PrimFloat.eqb c 0); [done|].
  destruct (PrimFloat.ltb _ _); [|done]. by intros [= <-].
Qed.

(** The loop from any point on: the pairs kept for the remaining keys are
    appended to the dict, in the order of the keys. *)
Lemma line_near_loop (l : list string) (acc : odict) :
  NoDup l →
  (∀ k, k ∈ l → k ∉ acc.*1) →
  (∀ k, k ∈ l → is_ok (line k) ∧ is_ok (cs k)) →
  for_fold body acc l = inr (acc ++ omap keep l).
Proof.
  revert acc. induction l as [|x l IH]; intros acc Hnd Hfresh Hok; simpl.
  { by rewrite app_nil_r. }
  apply NoDup_cons in Hnd as [Hx Hnd].
  destruct (Hok x) as [[v Hv] [c Hc]]; [left|].
  assert (∀ k, k ∈ l → is_ok (line k) ∧ is_ok (cs k)) as Hok'.
  { intros k Hk. apply Hok. by right. }
  unfold line in Hv. unfold cs in Hc.
  unfold body at 1, line, line_near_body. rewrite Hv. simpl.
  rewrite Hc. simpl.
  unfold keep at 1, line_near_keep. rewrite Hv, Hc.
  destruct (PrimFloat.eqb c 0).
  { simpl. apply IH; [done| |done]. intros k Hk. apply Hfresh. by right. }
  destruct (PrimFloat.ltb _ _).
  - simpl. rewrite dict_setitem_fresh by (apply Hfresh; left).
    rewrite IH; [by rewrite <-app_assoc|done| |done].
    intros k Hk. rewrite fmap_app. simpl.
    intros [Hin| ->%list_elem_of_singleton]%elem_of_app; [|done].
    revert Hin. apply Hfresh. by right.
  - simpl. apply IH; [done| |done]. intros k Hk. apply Hfresh. by right.
Qed.

(** The loop ends without an exception only if the line energy and the
    cross section of every key are computed. *)
Lemma line_near_loop_inv (l : list string) (acc out : odict) :
  for_fold body acc l = inr out →
  ∀ k, k ∈ l → is_ok (line k) ∧ is_ok (cs k).
Proof.
  revert acc. induction l as [|x l IH]; intros acc Hout k Hk.
  { by apply elem_of_nil in Hk. }
  simpl in Hout. apply bind_inr in Hout as (acc' & Hbody & Hrest).
  apply elem_of_cons in Hk as [->|Hk]; [|by eapply IH].
  unfold body in Hbody. apply bind_inr in Hbody as (v & Hv & Hbody).
  unfold line_near_body in Hbody. apply bind_inr in Hbody as (c & Hc & _).
  split; by eexists.
Qed.

Lemma Element_line_near_ok (element : ident) :
  Element_init XRAYLIB_MAP OTHER_VAL element = inr self →
  (∀ k, k ∈ XrayLibWrap_iter (Element_emission_line self) →
        is_ok (line k) ∧ is_ok (cs k)) →
  Element_line_near XRAYLIB_MAP self energy delta_e incident_energy
    = inr (omap keep (XrayLibWrap_iter (Element_emission_line self))).
Proof.
  intros [m Hm]%Element_init_emission_line Hok.
  unfold Element_line_near. fold line. fold body.
  rewrite line_near_loop; [done| |by intros ? _; apply not_elem_of_nil|done].
  rewrite Hm. apply sorted_keys_NoDup.
Qed.

(** [line_near] returns exactly in that case, and then returns the pairs
    kept for the emission-line keys, in their order. *)
Lemma Element_line_near_inr (element : ident) (out_dict : odict) :
  Element_init XRAYLIB_MAP OTHER_VAL element = inr self →
  Element_line_near XRAYLIB_MAP self energy delta_e incident_energy
    = inr out_dict ↔
  (∀ k, k ∈ XrayLibWrap_iter (Element_emission_line self) →
        is_ok (line k) ∧ is_ok (cs k)) ∧
  out_dict = omap keep (XrayLibWrap_iter (Element_emission_line self)).
Proof.
  intros Hinit. split.
  - intros Hout.
    assert (∀ k, k ∈ XrayLibWrap_iter (Element_emission_line self) →
                 is_ok (line k) ∧ is_ok (cs k)) as Hok
      by (by eapply line_near_loop_inv).
    split; [done|].
    rewrite (Element_line_near_ok _ Hinit Hok) in Hout. by injection Hout.
  - intros [Hok ->]. by eapply Element_line_near_ok.
Qed.

End line_near.

(** C1. When the line energy and the cross section of every emission-line
    key are computed, [line_near] returns a dict in which a key [k] of the
    emission lines, with line energy [v] and cross section [c] at the
    incident energy, is present, with value [v], exactly when [c == 0] is
    false and [abs(v - energy) < delta_e] is true. So a line with a zero
    cross section is left out whatever its energy, a line with
    [abs(v - energy) == delta_e] is left out, and no other key is present. *)
Theorem line_near_contains (element : ident) (self : Element)
    (energy delta_e incident_energy : float) :
  Element_init XRAYLIB_MAP OTHER_VAL element = inr self →
  (∀ k, k ∈ XrayLibWrap_iter (Element_emission_line self) →
        is_ok (XrayLibWrap_getitem (Element_emission_line self) k) ∧
        is_ok (Element_cs_getitem XRAYLIB_MAP self incident_energy k)) →
  ∃ out_dict,
    Element_line_near XRAYLIB_MAP self energy delta_e incident_energy
      = inr out_dict ∧
    (∀ k, k ∉ XrayLibWrap_iter (Element_emission_line self) →
          dict_get out_dict k = None) ∧
    ∀ k v c,
      k ∈ XrayLibWrap_iter (Element_emission_line self) →
      XrayLibWrap_getitem (Element_emission_line self) k = inr v →
      Element_cs_getitem XRAYLIB_MAP self incident_energy k = inr c →
      (∀ v', dict_get out_dict k = Some v' ↔
             v' = v ∧ PrimFloat.eqb c 0 = false ∧
             PrimFloat.ltb (PrimFloat.abs (PrimFloat.sub v energy)) delta_e
               = true) ∧
      (PrimFloat.eqb c 0 = true → dict_get out_dict k = None) ∧
      (PrimFloat.eqb (PrimFloat.abs (PrimFloat.sub v energy)) delta_e = true →
       dict_get out_dict k = None).
Proof.
  intros Hinit Hok. eexists. split; [by eapply Element_line_near_ok|].
  pose proof (line_near_keep_key self energy delta_e incident_energy) as Hkey.
  split.
  - intros k Hk. rewrite dict_get_omap by done. by rewrite decide_False.
  - intros k v c Hk Hv Hc. rewrite dict_get_omap by done.
    rewrite decide_True by done. unfold line_near_keep. rewrite Hv, Hc.
    destruct (PrimFloat.eqb c 0) eqn:Hzero; simpl.
    { split_and!; [|done..]. intros v'. split; [done|]. by intros (_ & ? & _). }
    destruct (PrimFloat.ltb _ delta_e) eqn:Hnear; simpl.
    + split_and!; [|done|].
      * intros v'. split; [by intros [= <-]|by intros (-> & _)].
      * intros Heq%float_eqb_not_ltb. congruence.
    + split_and!; [|done..]. intros v'. split; [done|]. by intros (_ & _ & ?).
Qed.

(** C9. When the line energy and the cross section of every emission-line
    key are computed, the dict that [line_near] returns has no key twice,
    and its keys, in the order of insertion, are the emission-line keys
    that are present in it, in the order of the (sorted) key sequence of
    the emission lines. *)
Theorem line_near_order (element : ident) (self : Element)
    (energy delta_e incident_energy : float) :
  Element_init XRAYLIB_MAP OTHER_VAL element = inr self →
  (∀ k, k ∈ XrayLibWrap_iter (Element_emission_line self) →
        is_ok (XrayLibWrap_getitem (Element_emission_line self) k) ∧
        is_ok (Element_cs_getitem XRAYLIB_MAP self incident_energy k)) →
  ∃ out_dict,
    Element_line_near XRAYLIB_MAP self energy delta_e incident_energy
      = inr out_dict ∧
    NoDup out_dict.*1 ∧
    out_dict.*1 `sublist_of` XrayLibWrap_iter (Element_emission_line self) ∧
    out_dict.*1 = filter (λ k, is_Some (dict_get out_dict k))
                    (XrayLibWrap_iter (Element_emission_line self)) ∧
    StronglySorted str_lt out_dict.*1.
Proof.
  intros Hinit Hok. eexists. split; [by eapply Element_line_near_ok|].
  pose proof (line_near_keep_key self energy delta_e incident_energy) as Hkey.
  destruct (Element_init_emission_line _ _ Hinit) as [m Hm].
  rewrite (fst_omap_filter _ Hkey).
  assert (filter
            (λ k, is_Some (line_near_keep XRAYLIB_MAP self energy delta_e
                             incident_energy k))
            (XrayLibWrap_iter (Element_emission_line self))
          `sublist_of` XrayLibWrap_iter (Element_emission_line self)) as Hsub
    by apply sublist_filter.
  split_and!.
  - eapply sublist_NoDup; [|done]. rewrite Hm. apply sorted_keys_NoDup.
  - done.
  - apply filter_iff_elem_of. intros k Hk.
    rewrite dict_get_omap by done. rewrite decide_True by done.
    by rewrite fmap_is_Some.
  - eapply StronglySorted_sublist; [done|]. rewrite Hm.
    apply sorted_keys_str_lt.
Qed.

Lemma categories_present_init (z : Z) :
  categories_present XRAYLIB_MAP →
  ∃ l b j y,
    XrayLibWrap_init XRAYLIB_MAP z "lines" = inr l ∧
    XrayLibWrap_init XRAYLIB_MAP z "binding_e" = inr b ∧
    XrayLibWrap_init XRAYLIB_MAP z "jump" = inr j ∧
    XrayLibWrap_init XRAYLIB_MAP z "yield" = inr y.
Proof.
  intros Hcat.
  assert (∀ cat, cat ∈ ["lines"; "binding_e"; "jump"; "yield"] →
                 is_ok (XrayLibWrap_init XRAYLIB_MAP z cat)) as Hinit.
  { intros cat [[m f] Hmf]%Hcat. eexists.
    apply XrayLibWrap_init_inr. by exists m, f. }
  destruct (Hinit "lines") as [l Hl]; [set_solver|].
  destruct (Hinit "binding_e") as [b Hb]; [set_solver|].
  destruct (Hinit "jump") as [j Hj]; [set_solver|].
  destruct (Hinit "yield") as [y Hy]; [set_solver|].
  by exists l, b, j, y.
Qed.

(** C2. With tables as [Element.__init__] expects them, for every
    identifier of [OTHER_VAL], with element data [d]: [Element(s)] for any
    string [s] that is the symbol of [d] up to letter case, and
    [Element(d['Z'])], both return, and return the same element, of atomic
    number [d['Z']]; a string is lower-cased before the lookup. *)
Theorem Element_init_symbol_or_number (element : ident) (d : elem_dict)
    (s : string) :
  table_consistent OTHER_VAL →
  categories_present XRAYLIB_MAP →
  OTHER_VAL !! element = Some d →
  lower s = lower (d_sym d) →
  ∃ self,
    Element_init XRAYLIB_MAP OTHER_VAL (IdStr s) = inr self ∧
    Element_init XRAYLIB_MAP OTHER_VAL (IdInt (d_Z d)) = inr self ∧
    Element_Z self = d_Z d ∧
    Element_init XRAYLIB_MAP OTHER_VAL (IdStr s)
      = Element_init XRAYLIB_MAP OTHER_VAL (IdStr (lower s)).
Proof.
  intros Htable Hcat [Hnum Hsym]%Htable Hs.
  destruct (categories_present_init (d_Z d) Hcat)
    as (l & b & j & y & Hl & Hb & Hj & Hy).
  exists (mk_Element (d_sym d) (d_Z d) (d_mass d) (d_rho d) l b j y).
  split_and!.
  - apply Element_init_inr. exists d, l, b, j, y. simpl. by rewrite Hs.
  - apply Element_init_inr. by exists d, l, b, j, y.
  - done.
  - unfold Element_init. simpl. by rewrite lower_lower.
Qed.

End Elements.

(** ** Comparing and sorting elements *)

Global Instance Element_not_gt_total : Total Element_not_gt.
Proof.
  intros a b. unfold Element_not_gt, Element_lt.
  destruct (Z.ltb_spec (Element_Z b) (Element_Z a)); [right|left]; [|done].
  apply Z.ltb_ge. lia.
Qed.

Lemma sorted_elements_Sorted (l : list Element) :
  Sorted Z.le (Element_Z <$> sorted_elements l).
Proof.
  apply (Sorted_fmap _ Element_not_gt).
  - intros a b. unfold Element_not_gt, Element_lt. apply Z.ltb_ge.
  - apply (Sorted_merge_sort _).
Qed.

(** C3. [a == b] holds exactly when the atomic numbers are equal and
    [a < b] exactly when the atomic number of [a] is the smaller one; the
    comparisons that [functools.total_ordering] adds agree with the order
    of the atomic numbers; [<] is transitive, any two elements are related
    by [<], [==] or [>], and by one of them only; the comparisons depend
    on nothing but the atomic numbers (not on the name); and sorting a list
    of elements permutes it into increasing atomic number. *)
Theorem Element_total_order :
  (∀ a b : Element,
     (Element_eq a b = true ↔ Element_Z a = Element_Z b) ∧
     (Element_lt a b = true ↔ (Element_Z a < Element_Z b)%Z) ∧
     (Element_le a b = true ↔ (Element_Z a ≤ Element_Z b)%Z) ∧
     (Element_gt a b = true ↔ (Element_Z b < Element_Z a)%Z) ∧
     (Element_ge a b = true ↔ (Element_Z b ≤ Element_Z a)%Z)) ∧
  (∀ a b c : Element,
     Element_lt a b = true → Element_lt b c = true → Element_lt a c = true) ∧
  (∀ a b : Element,
     Element_lt a b = true ∨ Element_eq a b = true ∨ Element_lt b a = true) ∧
  (∀ a b : Element,
     Element_lt a b = true → Element_eq a b = false ∧ Element_lt b a = false) ∧
  (∀ a b a' b' : Element,
     Element_Z a = Element_Z a' → Element_Z b = Element_Z b' →
     Element_eq a b = Element_eq a' b' ∧ Element_lt a b = Element_lt a' b') ∧
  (∀ l : list Element,
     sorted_elements l ≡ₚ l ∧ Sorted Z.le (Element_Z <$> sorted_elements l)).
Proof.
  unfold Element_le, Element_gt, Element_ge, Element_eq, Element_lt.
  split_and!.
  - intros a b.
    destruct (Z.ltb_spec (Element_Z a) (Element_Z b)), (Z.eqb_spec (Element_Z a) (Element_Z b)),
      (Z.ltb_spec (Element_Z b) (Element_Z a)); simpl; split_and!; split;
      first [done | lia].
  - intros a b c. rewrite !Z.ltb_lt. lia.
  - intros a b. rewrite !Z.ltb_lt, Z.eqb_eq. lia.
  - intros a b. rewrite Z.ltb_lt, Z.eqb_neq, Z.ltb_ge. lia.
  - by intros a b a' b' -> ->.
  - intros l. split; [apply merge_sort_Permutation|].
    apply sorted_elements_Sorted.
Qed.

(** ** Programs on the store *)

Lemma eval_bind {A B} (m : prog A) (k : A → prog B) (σ : store) :
  eval (m ≫= k) σ = let! r := m σ in eval (k r.1) r.2.
Proof. unfold eval, mbind, prog_bind. by destruct (m σ). Qed.

(** A method that only reads the instance. *)
Lemma eval_read {A} (f : object → result A) (l : positive) (σ : store) :
  eval (o ← deref l; lift (f o)) σ =
  match σ !! l with
  | Some o => f o
  | None => raise TypeError
  end.
Proof.
  unfold eval, mbind, prog_bind, deref, lift.
  destruct (σ !! l) as [o|]; [|done]. simpl. by destruct (f o).
Qed.

Lemma eval_read_frame {A} (f : object → result A) (l l' : positive)
    (o' : object) (σ : store) :
  l' ≠ l →
  eval (o ← deref l; lift (f o)) (<[l':=o']> σ)
    = eval (o ← deref l; lift (f o)) σ.
Proof. intros Hne. by rewrite !eval_read, lookup_insert_ne. Qed.

Lemma eval_getitem (σ : store) (l : positive) (o : object) (key : string) :
  σ !! l = Some o → eval (obj_getitem l key) σ = object_getitem o key.
Proof.
  intros Ho. unfold eval, obj_getitem, mbind, prog_bind, deref, lift.
  rewrite Ho. simpl. by destruct (object_getitem o key).
Qed.

Lemma eval_all (σ : store) (l : positive) (o : object) :
  σ !! l = Some o → eval (obj_all l) σ = object_all o.
Proof.
  intros Ho. unfold eval, obj_all, mbind, prog_bind, deref, lift.
  rewrite Ho. simpl. by destruct (object_all o).
Qed.

Lemma eval_keys (σ : store) (l : positive) (o : object) :
  σ !! l = Some o → eval (obj_keys l) σ = inr (object_keys o).
Proof.
  intros Ho. unfold eval, obj_keys, mbind, prog_bind, deref.
  by rewrite Ho.
Qed.

Lemma eval_len (σ : store) (l : positive) (o : object) :
  σ !! l = Some o → eval (obj_len l) σ = inr (object_len o).
Proof.
  intros Ho. unfold eval, obj_len, mbind, prog_bind, deref.
  by rewrite Ho.
Qed.

Lemma run_set_incident_energy (σ : store) (l : positive) (o : object)
    (val : float) :
  σ !! l = Some o →
  obj_set_incident_energy l val σ
    = inr ((), <[l:=object_set_incident_energy o val]> σ).
Proof.
  intros Ho. unfold obj_set_incident_energy, mbind, prog_bind, deref, update.
  by rewrite Ho.
Qed.

Lemma run_set_info_type (σ : store) (l : positive) (o : object)
    (val : string) :
  σ !! l = Some o →
  obj_set_info_type l val σ = inr ((), <[l:=object_set_info_type o val]> σ).
Proof.
  intros Ho. unfold obj_set_info_type, mbind, prog_bind, deref, update.
  by rewrite Ho.
Qed.

Lemma run_new (XRAYLIB_MAP : gmap string (gmap string Z * xfunc)) (z : Z)
    (cat : string) (oe : option float) (σ : store) :
  new XRAYLIB_MAP z cat oe σ =
  let! o := new_object XRAYLIB_MAP z cat oe in
  ret (fresh (dom σ), <[fresh (dom σ):=o]> σ).
Proof.
  unfold new, mbind, prog_bind, lift, alloc.
  by destruct (new_object XRAYLIB_MAP z cat oe).
Qed.

Lemma fresh_lookup (σ : store) : σ !! fresh (dom σ) = None.
Proof. apply not_elem_of_dom, is_fresh. Qed.

(** C8. On an instance of [XrayLibWrap_Energy], after
    [l1.incident_energy = E1] and then [l1.incident_energy = E2] the
    instance holds [E2], and [l1[key]] calls the xraylib function with
    [E2]; [l2[key]] and [l2.all] of another instance are what they were
    before the two assignments. Two lookups made one after the other are
    two instances: assigning the incident energy of the first leaves what
    the second returns as at its construction. *)
Theorem incident_energy_assigned (σ : store) (l1 l2 : positive)
    (w1 : XrayLibWrap_Energy) (E1 E2 : float) (key : string) :
  σ !! l1 = Some (WrapEnergy w1) →
  l1 ≠ l2 →
  (obj_set_incident_energy l1 E1;; obj_set_incident_energy l1 E2) σ
    = inr ((), <[l1:=WrapEnergy (set_incident_energy w1 E2)]> σ) ∧
  eval (obj_set_incident_energy l1 E1;; obj_set_incident_energy l1 E2;;
        obj_getitem l1 key) σ
    = (let! c := subscript IdStr (_map (super w1)) (lower key) in
       call3 (_func (super w1)) (_element (super w1)) c E2) ∧
  eval (obj_set_incident_energy l1 E1;; obj_set_incident_energy l1 E2;;
        obj_getitem l2 key) σ
    = eval (obj_getitem l2 key) σ ∧
  eval (obj_set_incident_energy l1 E1;; obj_set_incident_energy l1 E2;;
        obj_all l2) σ
    = eval (obj_all l2) σ ∧
  ∀ (XRAYLIB_MAP : gmap string (gmap string Z * xfunc)) (z : Z)
    (cat : string) (ea eb : float),
    eval (a ← new XRAYLIB_MAP z cat (Some ea);
          b ← new XRAYLIB_MAP z cat (Some eb);
          obj_set_incident_energy a E1;; obj_set_incident_energy a E2;;
          obj_getitem b key) σ
    = (let! w := XrayLibWrap_Energy_init XRAYLIB_MAP z cat eb in
       XrayLibWrap_Energy_getitem w key).
Proof.
  intros Hl1 Hne.
  assert ((obj_set_incident_energy l1 E1;; obj_set_incident_energy l1 E2) σ
          = inr ((), <[l1:=WrapEnergy (set_incident_energy w1 E2)]> σ))
    as Hsets.
  { unfold mbind at 1, prog_bind.
    rewrite (run_set_incident_energy _ _ _ _ Hl1). simpl.
    erewrite run_set_incident_energy by apply lookup_insert_eq.
    by rewrite insert_insert_eq. }
  assert (∀ A (m : prog A),
            eval (obj_set_incident_energy l1 E1;;
                  obj_set_incident_energy l1 E2;; m) σ
            = eval m (<[l1:=WrapEnergy (set_incident_energy w1 E2)]> σ))
    as Hthen.
  { intros A m. rewrite eval_bind, (run_set_incident_energy _ _ _ _ Hl1).
    simpl. rewrite eval_bind.
    erewrite run_set_incident_energy by apply lookup_insert_eq.
    simpl. by rewrite insert_insert_eq. }
  split_and!.
  - done.
  - rewrite Hthen. by erewrite eval_getitem by apply lookup_insert_eq.
  - rewrite Hthen. by apply eval_read_frame.
  - rewrite Hthen. by apply eval_read_frame.
  - intros XRAYLIB_MAP z cat ea eb.
    rewrite eval_bind, run_new. unfold new_object.
    unfold XrayLibWrap_Energy_init.
    destruct (XrayLibWrap_init XRAYLIB_MAP z cat) as [e|b] eqn:Hb; [done|].
    simpl. rewrite eval_bind, run_new. unfold new_object.
    unfold XrayLibWrap_Energy_init. rewrite Hb. simpl.
    set (a := fresh (dom σ)).
    set (σa := <[a:=WrapEnergy (mk_XrayLibWrap_Energy b ea)]> σ).
    set (b' := fresh (dom σa)).
    assert (a ≠ b') as Hab.
    { intros Heq. pose proof (fresh_lookup σa) as Hfresh. fold b' in Hfresh.
      rewrite <-Heq in Hfresh. unfold σa in Hfresh.
      by rewrite lookup_insert_eq in Hfresh. }
    rewrite eval_bind.
    erewrite run_set_incident_energy
      by (rewrite lookup_insert_ne by done; apply lookup_insert_eq).
    simpl. rewrite eval_bind.
    erewrite run_set_incident_energy by apply lookup_insert_eq.
    simpl. erewrite eval_getitem; last first.
    { rewrite !lookup_insert_ne by done. apply lookup_insert_eq. }
    done.
Qed.

(** C10. Assigning [info_type] on an instance changes that attribute
    only: the dict, the function and the key list set by [__init__] are
    the same, and [l[key]], the keys, [len(l)] and [l.all] are what they
    were before the assignment. *)
Theorem info_type_assigned (σ : store) (l : positive) (o : object)
    (val key : string) :
  σ !! l = Some o →
  eval (obj_set_info_type l val;; obj_getitem l key) σ
    = eval (obj_getitem l key) σ ∧
  eval (obj_set_info_type l val;; obj_keys l) σ = eval (obj_keys l) σ ∧
  eval (obj_set_info_type l val;; obj_len l) σ = eval (obj_len l) σ ∧
  eval (obj_set_info_type l val;; obj_all l) σ = eval (obj_all l) σ ∧
  info_type (object_base (object_set_info_type o val)) = val ∧
  _map (object_base (object_set_info_type o val)) = _map (object_base o) ∧
  _func (object_base (object_set_info_type o val)) = _func (object_base o) ∧
  _keys (object_base (object_set_info_type o val)) = _keys (object_base o).
Proof.
  intros Ho.
  assert (∀ A (m : prog A),
            eval (obj_set_info_type l val;; m) σ
            = eval m (<[l:=object_set_info_type o val]> σ)) as Hthen.
  { intros A m. by rewrite eval_bind, (run_set_info_type _ _ _ _ Ho). }
  rewrite !Hthen.
  erewrite !eval_getitem, !eval_keys, !eval_len, !eval_all
    by first [apply lookup_insert_eq | done].
  by destruct o.
Qed.

(** ** Elements and stores of the sample tables *)

Lemma Sample_line_keys (k : string) :
  k ∈ Sample.line_keys → k = "ka1" ∨ k = "ka2" ∨ k = "kb1".
Proof.
  unfold Sample.line_keys.
  intros [->|[->|[->|[]%elem_of_nil]%elem_of_cons]%elem_of_cons]%elem_of_cons;
    auto.
Qed.

Lemma Sample_zn_init :
  Element_init Sample.XRAYLIB_MAP Sample.OTHER_VAL (IdStr "ZN")
    = inr Sample.zn.
Proof. vm_compute. reflexivity. Qed.

Lemma Sample_zn_ok (incident_energy : float) (k : string) :
  k ∈ XrayLibWrap_iter (Element_emission_line Sample.zn) →
  is_ok (XrayLibWrap_getitem (Element_emission_line Sample.zn) k) ∧
  is_ok (Element_cs_getitem Sample.XRAYLIB_MAP Sample.zn incident_energy k).
Proof.
  assert (∀ c, is_ok (Sample.LineEnergy 30 c) →
               is_ok (Sample.CS_FluorLine 30 c incident_energy)) as Hcs.
  { intros c [v Hv]. unfold Sample.CS_FluorLine. rewrite Hv. simpl.
    destruct (PrimFloat.ltb _ _); by eexists. }
  intros [->|[->| ->]]%Sample_line_keys; (split; [by eexists|]);
    apply (Hcs _); by eexists.
Qed.

Lemma Sample_table_consistent : table_consistent Sample.OTHER_VAL.
Proof.
  intros element d Hd. unfold Sample.OTHER_VAL in Hd. simpl in Hd.
  repeat (apply lookup_insert_Some in Hd as [[_ <-]|[_ Hd]];
          [split; vm_compute; reflexivity|]).
  by rewrite lookup_empty in Hd.
Qed.

Lemma Sample_categories_present : categories_present Sample.XRAYLIB_MAP.
Proof.
  intros cat Hcat.
  repeat (apply elem_of_cons in Hcat as [->|Hcat]; [by eexists|]).
  by apply elem_of_nil in Hcat.
Qed.

Example line_near_zn :
  Element_line_near Sample.XRAYLIB_MAP Sample.zn 8.5 0.5 10
    = inr [("ka1", 8.5%float); ("ka2", 8.25%float)].
Proof. vm_compute. reflexivity. Qed.

(** [abs(8.25 - 8.5) == 0.25]: 'ka2' is left out. *)
Example line_near_zn_boundary :
  Element_line_near Sample.XRAYLIB_MAP Sample.zn 8.5 0.25 10
    = inr [("ka1", 8.5%float)].
Proof. vm_compute. reflexivity. Qed.

(** The cross section of 'kb1' (9.5 keV) is zero at 10.25 keV: it is left
    out although its energy is the one searched for. *)
Example line_near_zn_zero_cs :
  Element_line_near Sample.XRAYLIB_MAP Sample.zn 9.5 2 10.25
    = inr [("ka1", 8.5%float); ("ka2", 8.25%float)].
Proof. vm_compute. reflexivity. Qed.

Lemma line_near_contains_witness :
  Element_init Sample.XRAYLIB_MAP Sample.OTHER_VAL (IdStr "ZN")
    = inr Sample.zn ∧
  (∀ k, k ∈ XrayLibWrap_iter (Element_emission_line Sample.zn) →
        is_ok (XrayLibWrap_getitem (Element_emission_line Sample.zn) k) ∧
        is_ok (Element_cs_getitem Sample.XRAYLIB_MAP Sample.zn 10.25 k)) ∧
  ∃ out_dict,
    Element_line_near Sample.XRAYLIB_MAP Sample.zn 9.5 2 10.25
      = inr out_dict ∧
    dict_get out_dict "ka2" = Some 8.25%float ∧
    dict_get out_dict "kb1" = None.
Proof.
  split; [exact Sample_zn_init|]. split; [exact (Sample_zn_ok 10.25)|].
  destruct (line_near_contains Sample.XRAYLIB_MAP Sample.OTHER_VAL
              (IdStr "ZN") Sample.zn 9.5 2 10.25 Sample_zn_init
              (Sample_zn_ok 10.25)) as (out_dict & Hout & _ & Hkeys).
  exists out_dict. split; [done|]. split.
  - destruct (Hkeys "ka2" 8.25%float 1.5%float) as (Hiff & _ & _);
      [apply (bool_decide_unpack _)|..]; [by vm_compute..|].
    apply Hiff. by vm_compute.
  - destruct (Hkeys "kb1" 9.5%float 0%float) as (_ & Hzero & _);
      [apply (bool_decide_unpack _)|..]; [by vm_compute..|].
    apply Hzero. by vm_compute.
Defined.

Lemma line_near_order_witness :
  Element_init Sample.XRAYLIB_MAP Sample.OTHER_VAL (IdStr "ZN")
    = inr Sample.zn ∧
  (∀ k, k ∈ XrayLibWrap_iter (Element_emission_line Sample.zn) →
        is_ok (XrayLibWrap_getitem (Element_emission_line Sample.zn) k) ∧
        is_ok (Element_cs_getitem Sample.XRAYLIB_MAP Sample.zn 10 k)) ∧
  ∃ out_dict,
    Element_line_near Sample.XRAYLIB_MAP Sample.zn 8.5 0.5 10
      = inr out_dict ∧
    NoDup out_dict.*1 ∧
    out_dict.*1 `sublist_of` XrayLibWrap_iter (Element_emission_line Sample.zn) ∧
    out_dict.*1 = filter (λ k, is_Some (dict_get out_dict k))
                    (XrayLibWrap_iter (Element_emission_line Sample.zn)) ∧
    StronglySorted str_lt out_dict.*1.
Proof.
  split; [exact Sample_zn_init|]. split; [exact (Sample_zn_ok 10)|].
  exact (line_near_order Sample.XRAYLIB_MAP Sample.OTHER_VAL (IdStr "ZN")
           Sample.zn 8.5 0.5 10 Sample_zn_init (Sample_zn_ok 10)).
Defined.

Lemma Element_init_symbol_or_number_witness :
  table_consistent Sample.OTHER_VAL ∧
  categories_present Sample.XRAYLIB_MAP ∧
  Sample.OTHER_VAL !! IdInt 30 = Some (mk_elem_dict "Zn" 30 65.375 7.125) ∧
  lower "zN" = lower "Zn" ∧
  ∃ self,
    Element_init Sample.XRAYLIB_MAP Sample.OTHER_VAL (IdStr "zN") = inr self ∧
    Element_init Sample.XRAYLIB_MAP Sample.OTHER_VAL (IdInt 30) = inr self ∧
    Element_Z self = 30%Z.
Proof.
  assert (Sample.OTHER_VAL !! IdInt 30
          = Some (mk_elem_dict "Zn" 30 65.375 7.125)) as Hd
    by (vm_compute; reflexivity).
  assert (lower "zN" = lower "Zn") as Hs by reflexivity.
  split_and!; [exact Sample_table_consistent|exact Sample_categories_present
              |done..|].
  destruct (Element_init_symbol_or_number Sample.XRAYLIB_MAP Sample.OTHER_VAL
              (IdInt 30) (mk_elem_dict "Zn" 30 65.375 7.125) "zN"
              Sample_table_consistent Sample_categories_present Hd Hs)
    as (self & H1 & H2 & H3 & _).
  by exists self.
Defined.

Lemma incident_energy_assigned_witness :
  Sample.two_lookups !! 1%positive = Some (WrapEnergy Sample.zn_cs_5) ∧
  1%positive ≠ 2%positive ∧
  eval (obj_set_incident_energy 1 20;; obj_set_incident_energy 1 5;;
        obj_getitem 1 "Ka1") Sample.two_lookups = inr 0%float ∧
  eval (obj_set_incident_energy 1 5;; obj_set_incident_energy 1 20;;
        obj_getitem 1 "Ka1") Sample.two_lookups = inr 1.5%float ∧
  eval (obj_set_incident_energy 1 5;; obj_set_incident_energy 1 20;;
        obj_getitem 2 "Ka1") Sample.two_lookups
    = eval (obj_getitem 2 "Ka1") Sample.two_lookups.
Proof.
  assert (Sample.two_lookups !! 1%positive
          = Some (WrapEnergy Sample.zn_cs_5)) as Hl by reflexivity.
  assert (1%positive ≠ 2%positive) as Hne by done.
  split_and!; [done..| | |].
  - destruct (incident_energy_assigned Sample.two_lookups 1 2
                Sample.zn_cs_5 20 5 "Ka1" Hl Hne) as (_ & -> & _).
    by vm_compute.
  - destruct (incident_energy_assigned Sample.two_lookups 1 2
                Sample.zn_cs_5 5 20 "Ka1" Hl Hne) as (_ & -> & _).
    by vm_compute.
  - by destruct (incident_energy_assigned Sample.two_lookups 1 2
                   Sample.zn_cs_5 5 20 "Ka1" Hl Hne) as (_ & _ & -> & _).
Defined.

Lemma info_type_assigned_witness :
  Sample.two_lookups !! 2%positive = Some Sample.fe_cs ∧
  eval (obj_set_info_type 2 "yield";; obj_getitem 2 "KB1") Sample.two_lookups
    = eval (obj_getitem 2 "KB1") Sample.two_lookups ∧
  eval (obj_set_info_type 2 "yield";; obj_keys 2) Sample.two_lookups
    = eval (obj_keys 2) Sample.two_lookups ∧
  eval (obj_set_info_type 2 "yield";; obj_len 2) Sample.two_lookups
    = eval (obj_len 2) Sample.two_lookups ∧
  eval (obj_set_info_type 2 "yield";; obj_all 2) Sample.two_lookups
    = eval (obj_all 2) Sample.two_lookups.
Proof.
  assert (Sample.two_lookups !! 2%positive = Some Sample.fe_cs) as Hl
    by reflexivity.
  split; [done|].
  destruct (info_type_assigned Sample.two_lookups 2 Sample.fe_cs "yield"
              "KB1" Hl) as (H1 & H2 & H3 & H4 & _).
  done.
Defined.

Example info_type_assigned_keys :
  eval (obj_set_info_type 2 "yield";; obj_keys 2) Sample.two_lookups
    = inr ["ka1"; "ka2"; "kb1"].
Proof. vm_compute. reflexivity. Qed.

(** ** More on the lookups: construction, keys and inherited methods *)

Lemma for_list_first_exception {A B} (f : A → result B) (l1 l2 : list A)
    (x : A) (e : exn) :
  (∀ y, y ∈ l1 → is_ok (f y)) →
  f x = inl e →
  for_list f (l1 ++ x :: l2) = inl e.
Proof.
  intros Hl1 Hx. induction l1 as [|y l1 IH]; simpl.
  - by rewrite Hx.
  - destruct (Hl1 y) as [b Hb]; [left|]. rewrite Hb. simpl.
    rewrite IH; [done|]. intros y' Hy'. apply Hl1. by right.
Qed.

Lemma sorted_keys_length (m : gmap string Z) :
  length (sorted_keys m) = size m.
Proof.
  unfold sorted_keys. rewrite sorted_Permutation, length_fmap.
  apply length_map_to_list.
Qed.

Section More_lookups.
Variable XRAYLIB_MAP : gmap string (gmap string Z * xfunc).

Lemma new_object_getitem (z : Z) (cat : string) (oe : option float)
    (o : object) (m : gmap string Z) (fn : xfunc) (key : string) :
  XRAYLIB_MAP !! cat = Some (m, fn) →
  new_object XRAYLIB_MAP z cat oe = inr o →
  object_getitem o key =
  let! c := subscript IdStr m (lower key) in lookup_call fn z oe c.
Proof.
  intros Hcat (m' & fn' & Hcat' & ->)%new_object_inr.
  rewrite Hcat in Hcat'. injection Hcat' as <- <-. by destruct oe.
Qed.

(** X1. A lookup of either class is constructed exactly when its category
    is a key of [XRAYLIB_MAP] as it is written (the category is not
    lower-cased); otherwise the constructor raises [KeyError] with the
    category. *)
Theorem new_object_category (z : Z) (cat : string) (oe : option float) :
  (is_ok (new_object XRAYLIB_MAP z cat oe) ↔ is_Some (XRAYLIB_MAP !! cat)) ∧
  (∀ e, new_object XRAYLIB_MAP z cat oe = inl e ↔
        XRAYLIB_MAP !! cat = None ∧ e = KeyError (IdStr cat)).
Proof.
  unfold new_object, XrayLibWrap_Energy_init, XrayLibWrap_init, subscript.
  destruct (XRAYLIB_MAP !! cat) as [[m fn]|]; destruct oe; simpl.
  - split; [split; [by eexists|by eexists]|]. intros e. split; [done|].
    by intros [? _].
  - split; [split; [by eexists|by eexists]|]. intros e. split; [done|].
    by intros [? _].
  - split; [split; [by intros [? ?]|by intros [? ?]]|].
    intros e. split; [by intros [= <-]|by intros [_ ->]].
  - split; [split; [by intros [? ?]|by intros [? ?]]|].
    intros e. split; [by intros [= <-]|by intros [_ ->]].
Qed.

(** X2. For a key whose lower-case form is filed under the code [c] in the
    dict of the category, [o[key]] is the call of the function of the
    category on the atomic number the lookup was constructed with, [c]
    and, for [XrayLibWrap_Energy], the incident energy: the value, or the
    exception, of that call is passed on as it is. *)
Theorem getitem_calls_function (z : Z) (cat : string) (oe : option float)
    (o : object) (m : gmap string Z) (fn : xfunc) (key : string) (c : Z) :
  XRAYLIB_MAP !! cat = Some (m, fn) →
  new_object XRAYLIB_MAP z cat oe = inr o →
  m !! lower key = Some c →
  object_getitem o key = lookup_call fn z oe c.
Proof.
  intros Hcat Hnew Hc. rewrite (new_object_getitem _ _ _ _ _ _ _ Hcat Hnew).
  by rewrite (proj2 (subscript_inr IdStr m (lower key) c) Hc).
Qed.

(** X3. [len(o)] is the number of entries of the dict of the category. *)
Theorem len_dict_size (z : Z) (cat : string) (oe : option float)
    (o : object) (m : gmap string Z) (fn : xfunc) :
  XRAYLIB_MAP !! cat = Some (m, fn) →
  new_object XRAYLIB_MAP z cat oe = inr o →
  object_len o = size m ∧ length (object_keys o) = size m.
Proof.
  intros Hcat (m' & fn' & Hcat' & _ & Hkeys)%new_object_keys.
  rewrite Hcat in Hcat'. injection Hcat' as <- <-.
  by rewrite object_len_keys, Hkeys, sorted_keys_length.
Qed.

(** X4. When every key of the dict of the category is lower-case, each key
    [k] that the lookup lists is resolved to its own code: [o[k]] is the
    call of the function on the code filed under [k], and raises no
    [KeyError] of the lookup. *)
Theorem listed_key_own_code (z : Z) (cat : string) (oe : option float)
    (o : object) (m : gmap string Z) (fn : xfunc) (k : string) :
  XRAYLIB_MAP !! cat = Some (m, fn) →
  new_object XRAYLIB_MAP z cat oe = inr o →
  (∀ k', is_Some (m !! k') → lower k' = k') →
  k ∈ object_keys o →
  ∃ c, m !! k = Some c ∧ object_getitem o k = lookup_call fn z oe c.
Proof.
  intros Hcat Hnew Hlower Hk.
  destruct (new_object_keys _ _ _ _ _ Hnew) as (m' & fn' & Hcat' & _ & Hkeys).
  rewrite Hcat in Hcat'. injection Hcat' as <- <-.
  rewrite Hkeys in Hk. apply sorted_keys_elem_of in Hk as Hsome.
  destruct Hsome as [c Hc]. exists c. split; [done|].
  rewrite (new_object_getitem _ _ _ _ _ _ _ Hcat Hnew).
  rewrite (Hlower k) by by exists c.
  by rewrite (proj2 (subscript_inr IdStr m k c) Hc).
Qed.

(** X5. Every key of the dict is listed by the lookup, but [o[k]] reads
    the dict under the lower-case form of [k]. For a key [k] of the dict
    whose lower-case form is not a key, [o[k]] raises [KeyError], [k in o]
    is [False] and [o.all] raises; if the lower-case form is filed under a
    code [c'], [o[k]] is the call for [c'], not for the code of [k]. *)
Theorem listed_key_not_lower_case (z : Z) (cat : string) (oe : option float)
    (o : object) (m : gmap string Z) (fn : xfunc) (k : string) (c : Z) :
  XRAYLIB_MAP !! cat = Some (m, fn) →
  new_object XRAYLIB_MAP z cat oe = inr o →
  m !! k = Some c →
  k ∈ object_keys o ∧
  (m !! lower k = None →
     object_getitem o k = inl (KeyError (IdStr (lower k))) ∧
     object_contains o k = inr false ∧
     ¬ is_ok (object_all o)) ∧
  (∀ c', m !! lower k = Some c' →
     object_getitem o k = lookup_call fn z oe c').
Proof.
  intros Hcat Hnew Hc.
  destruct (new_object_keys _ _ _ _ _ Hnew) as (m' & fn' & Hcat' & _ & Hkeys).
  rewrite Hcat in Hcat'. injection Hcat' as <- <-.
  assert (k ∈ object_keys o) as Hk.
  { rewrite Hkeys. apply sorted_keys_elem_of. by exists c. }
  pose proof (new_object_getitem z cat oe o m fn) as Hget.
  split_and!; [done| |].
  - intros Hnone.
    assert (object_getitem o k = inl (KeyError (IdStr (lower k)))) as Hraise.
    { rewrite Hget by done. by rewrite (subscript_None _ _ _ Hnone). }
    split_and!; [done|by unfold object_contains; rewrite Hraise|].
    intros [l [Hl Hvals]%object_all_inr].
    rewrite <-Hl in Hk. apply list_elem_of_fmap in Hk as (kv & -> & Hkv).
    eapply Forall_forall in Hvals; [|done]. congruence.
  - intros c' Hc'. rewrite Hget by done.
    by rewrite (proj2 (subscript_inr IdStr m (lower k) c') Hc').
Qed.

End More_lookups.

(** X6. [o.all] raises the exception of the first key, in the order of
    the keys, for which [o[k]] raises. *)
Theorem all_first_exception (o : object) (l1 l2 : list string) (k : string)
    (e : exn) :
  object_keys o = l1 ++ k :: l2 →
  (∀ k', k' ∈ l1 → is_ok (object_getitem o k')) →
  object_getitem o k = inl e →
  object_all o = inl e.
Proof.
  intros Hkeys Hl1 Hk.
  assert (for_list (λ k0, let! v := object_getitem o k0 in ret (k0, v))
            (l1 ++ k :: l2) = inl e) as Hall.
  { apply for_list_first_exception.
    - intros k' [v Hv]%Hl1. rewrite Hv. by eexists.
    - by rewrite Hk. }
  rewrite <-Hkeys in Hall. by destruct o.
Qed.

(** [o[key]] reads nothing of the key but its lower-case form. *)
Lemma object_getitem_lower (o : object) (k1 k2 : string) :
  lower k1 = lower k2 → object_getitem o k1 = object_getitem o k2.
Proof.
  intros Hk. destruct o as [w|w]; simpl;
    unfold XrayLibWrap_getitem, XrayLibWrap_Energy_getitem; by rewrite Hk.
Qed.

(** The upper-case form of a key is lower-cased like the key: so it is
    for an ASCII key. *)
Lemma upper_lower_stable (key K : string) :
  upper key = Some K →
  is_ascii key = true ∨ lower K = lower key →
  lower K = lower key.
Proof.
  intros HK [Hascii|Hstable]; [|done].
  destruct (upper_ascii key Hascii) as (K' & HK' & Hlower). congruence.
Qed.


(** X7. The membership test and [get] of a lookup follow [o[key]]: for a
    key whose lower-case form is not among the keys, [key in o] is [False]
    and [o.get(key, default)] is [default], without an exception; when
    [o[key]] returns [v] they are [True] and [v]; and for a key that is
    ASCII or, more generally, whose upper-case form is lower-cased to the
    same string as the key, they are the same for the key and for its
    upper-case form. *)
Theorem contains_and_get (XRAYLIB_MAP : gmap string (gmap string Z * xfunc))
    (z : Z) (cat : string) (oe : option float) (o : object) (key : string)
    (default : option float) :
  new_object XRAYLIB_MAP z cat oe = inr o →
  (lower key ∉ object_keys o →
     object_contains o key = inr false ∧
     object_get o key default = inr default) ∧
  (∀ v, object_getitem o key = inr v →
     object_contains o key = inr true ∧
     object_get o key default = inr (Some v)) ∧
  (∀ K, upper key = Some K →
     is_ascii key = true ∨ lower K = lower key →
     object_contains o K = object_contains o key ∧
     object_get o K default = object_get o key default).
Proof.
  intros (m & f & _ & Hmap & Hkeys)%new_object_keys.
  unfold object_contains, object_get. split_and!.
  - intros Hnotin.
    rewrite Hkeys, sorted_keys_elem_of, <-eq_None_not_Some in Hnotin.
    subst m.
    assert (object_getitem o key = inl (KeyError (IdStr (lower key)))) as ->;
      [|done].
    destruct o as [w|w]; simpl in *;
      unfold XrayLibWrap_getitem, XrayLibWrap_Energy_getitem;
      by rewrite (subscript_None _ _ _ Hnotin).
  - by intros v ->.
  - intros K HK Hstable.
    pose proof (upper_lower_stable _ _ HK Hstable) as Hlower.
    by rewrite (object_getitem_lower o K key Hlower).
Qed.

(** ** More on [Element]: construction and equality *)

Section More_elements.
Variable XRAYLIB_MAP : gmap string (gmap string Z * xfunc).
Variable OTHER_VAL : gmap ident elem_dict.

Lemma XrayLibWrap_init_None (z : Z) (cat : string) :
  XRAYLIB_MAP !! cat = None →
  XrayLibWrap_init XRAYLIB_MAP z cat = inl (KeyError (IdStr cat)).
Proof.
  intros Hcat. unfold XrayLibWrap_init.
  by rewrite (subscript_None _ _ _ Hcat).
Qed.

Lemma XrayLibWrap_init_Some (z : Z) (cat : string) (mf : gmap string Z * xfunc) :
  XRAYLIB_MAP !! cat = Some mf →
  XrayLibWrap_init XRAYLIB_MAP z cat
    = inr (mk_XrayLibWrap z cat mf.1 mf.2 (sorted_keys mf.1)).
Proof.
  intros Hcat. unfold XrayLibWrap_init.
  by rewrite (proj2 (subscript_inr IdStr _ _ _) Hcat).
Qed.

(** X8. [Element(element)] returns exactly when the identifier, a string
    being lower-cased first, is a key of [OTHER_VAL] and [XRAYLIB_MAP] has
    the categories 'lines', 'binding_e', 'jump' and 'yield'. For an
    unknown identifier it raises [KeyError] with that (lower-cased)
    identifier, whatever [XRAYLIB_MAP] holds; for a known one it raises
    [KeyError] with the first of the four categories that is missing. *)
Theorem Element_init_raises (element : ident) :
  (OTHER_VAL !! down_cast element = None →
     Element_init XRAYLIB_MAP OTHER_VAL element
       = inl (KeyError (down_cast element))) ∧
  (∀ cat, is_Some (OTHER_VAL !! down_cast element) →
     first_missing XRAYLIB_MAP ["lines"; "binding_e"; "jump"; "yield"]
       = Some cat →
     Element_init XRAYLIB_MAP OTHER_VAL element
       = inl (KeyError (IdStr cat))) ∧
  (is_ok (Element_init XRAYLIB_MAP OTHER_VAL element) ↔
     is_Some (OTHER_VAL !! down_cast element) ∧
     first_missing XRAYLIB_MAP ["lines"; "binding_e"; "jump"; "yield"]
       = None).
Proof.
  unfold Element_init. split_and!.
  - intros Hnone. by rewrite (subscript_None id _ _ Hnone).
  - intros cat [d Hd]. rewrite (proj2 (subscript_inr id _ _ _) Hd). simpl.
    destruct (XRAYLIB_MAP !! "lines") as [l|] eqn:Hl;
      [rewrite (XrayLibWrap_init_Some _ _ _ Hl)
      |rewrite (XrayLibWrap_init_None _ _ Hl); by intros [= <-]].
    simpl.
    destruct (XRAYLIB_MAP !! "binding_e") as [b|] eqn:Hb;
      [rewrite (XrayLibWrap_init_Some _ _ _ Hb)
      |rewrite (XrayLibWrap_init_None _ _ Hb); by intros [= <-]].
    simpl.
    destruct (XRAYLIB_MAP !! "jump") as [j|] eqn:Hj;
      [rewrite (XrayLibWrap_init_Some _ _ _ Hj)
      |rewrite (XrayLibWrap_init_None _ _ Hj); by intros [= <-]].
    simpl.
    destruct (XRAYLIB_MAP !! "yield") as [y|] eqn:Hy;
      [done|rewrite (XrayLibWrap_init_None _ _ Hy); by intros [= <-]].
  - destruct (OTHER_VAL !! down_cast element) as [d|] eqn:Hd.
    2:{ rewrite (subscript_None id _ _ Hd). simpl.
        split; [by intros [? ?]|by intros [[? ?] _]]. }
    rewrite (proj2 (subscript_inr id _ _ _) Hd). simpl.
    destruct (XRAYLIB_MAP !! "lines") as [l|] eqn:Hl;
      [rewrite (XrayLibWrap_init_Some _ _ _ Hl)
      |rewrite (XrayLibWrap_init_None _ _ Hl);
       split; [by intros [? ?]|by intros [_ ?]]].
    simpl.
    destruct (XRAYLIB_MAP !! "binding_e") as [b|] eqn:Hb;
      [rewrite (XrayLibWrap_init_Some _ _ _ Hb)
      |rewrite (XrayLibWrap_init_None _ _ Hb);
       split; [by intros [? ?]|by intros [_ ?]]].
    simpl.
    destruct (XRAYLIB_MAP !! "jump") as [j|] eqn:Hj;
      [rewrite (XrayLibWrap_init_Some _ _ _ Hj)
      |rewrite (XrayLibWrap_init_None _ _ Hj);
       split; [by intros [? ?]|by intros [_ ?]]].
    simpl.
    destruct (XRAYLIB_MAP !! "yield") as [y|] eqn:Hy;
      [rewrite (XrayLibWrap_init_Some _ _ _ Hy)
      |rewrite (XrayLibWrap_init_None _ _ Hy);
       split; [by intros [? ?]|by intros [_ ?]]].
    simpl. split; [done|]. intros _. by eexists.
Qed.

(** X9. A constructed element carries the symbol, atomic number, mass and
    density of the data dict found under its identifier, and its four
    lookups are the lookups of the categories 'lines', 'binding_e', 'jump'
    and 'yield' constructed for its own atomic number. *)
Theorem Element_init_attributes (element : ident) (self : Element) :
  Element_init XRAYLIB_MAP OTHER_VAL element = inr self →
  (∃ d, OTHER_VAL !! down_cast element = Some d ∧
        Element_name self = d_sym d ∧ Element_Z self = d_Z d ∧
        Element_mass self = d_mass d ∧ Element_density self = d_rho d) ∧
  new_object XRAYLIB_MAP (Element_Z self) "lines" None
    = inr (Wrap (Element_emission_line self)) ∧
  new_object XRAYLIB_MAP (Element_Z self) "binding_e" None
    = inr (Wrap (Element_bind_energy self)) ∧
  new_object XRAYLIB_MAP (Element_Z self) "jump" None
    = inr (Wrap (Element_jump_factor self)) ∧
  new_object XRAYLIB_MAP (Element_Z self) "yield" None
    = inr (Wrap (Element_fluor_yield self)).
Proof.
  intros (d & l & b & j & y & Hd & Hl & Hb & Hj & Hy & ->)%Element_init_inr.
  split; [by exists d|].
  unfold new_object, Element_Z, Element_emission_line, Element_bind_energy,
    Element_jump_factor, Element_fluor_yield. simpl.
  by rewrite Hl, Hb, Hj, Hy.
Qed.

(** X10. With every data dict of [OTHER_VAL] filed under its atomic
    number, two constructed elements that compare equal, that is, have the
    same atomic number, are the same in every attribute, lookups
    included. *)
Theorem Element_eq_constructed (element1 element2 : ident)
    (a b : Element) :
  filed_under_number OTHER_VAL →
  Element_init XRAYLIB_MAP OTHER_VAL element1 = inr a →
  Element_init XRAYLIB_MAP OTHER_VAL element2 = inr b →
  Element_eq a b = true ↔ a = b.
Proof.
  intros Htable
    (da & la & ba & ja & ya & Hda & Hla & Hba & Hja & Hya & ->)%Element_init_inr
    (db & lb & bb & jb & yb & Hdb & Hlb & Hbb & Hjb & Hyb & ->)%Element_init_inr.
  unfold Element_eq, Element_Z. simpl. rewrite Z.eqb_eq. split.
  - intros Hz.
    apply Htable in Hda. apply Htable in Hdb.
    rewrite Hz in Hda. rewrite Hda in Hdb. injection Hdb as ->.
    congruence.
  - by intros [= _ -> _ _ _ _ _ _].
Qed.

End More_elements.

(** ** More float comparisons *)

Lemma SFcompare_trans_lt_le (x y z : spec_float) :
  SFltb x y = true → SFleb y z = true → SFltb x z = true.
Proof.
  unfold SFltb, SFleb.
  destruct x as [sx|sx| |sx mx ex], y as [sy|sy| |sy my ey],
    z as [sz|sz| |sz mz ez]; simpl; try done;
    try (destruct sx; done); try (destruct sy; done);
    try (destruct sz; done);
    try (destruct sx, sy; done); try (destruct sy, sz; done);
    try (destruct sx, sz; done); try (destruct sx, sy, sz; done).
  destruct sx, sy, sz; try done.
  - destruct (Z.compare_spec ex ey), (Z.compare_spec ey ez),
      (Z.compare_spec ex ez); try done; try lia.
    all: rewrite <-?Pos.compare_cont_antisym;
      fold (Pos.compare mx my); fold (Pos.compare my mz);
      fold (Pos.compare mx mz);
      destruct (Pos.compare_spec mx my), (Pos.compare_spec my mz),
        (Pos.compare_spec mx mz); simpl; try done; lia.
  - destruct (Z.compare_spec ex ey), (Z.compare_spec ey ez),
      (Z.compare_spec ex ez); try done; try lia.
    all: fold (Pos.compare mx my); fold (Pos.compare my mz);
      fold (Pos.compare mx mz);
      destruct (Pos.compare_spec mx my), (Pos.compare_spec my mz),
        (Pos.compare_spec mx mz); simpl; try done; lia.
Qed.

Lemma float_ltb_leb_trans (x y z : float) :
  PrimFloat.ltb x y = true → PrimFloat.leb y z = true →
  PrimFloat.ltb x z = true.
Proof.
  rewrite !FloatAxioms.ltb_spec, FloatAxioms.leb_spec.
  apply SFcompare_trans_lt_le.
Qed.

(** [abs(x) < d] is false unless [0 < d]. *)
Lemma float_abs_ltb_nonpos (x d : float) :
  PrimFloat.ltb 0 d = false → PrimFloat.ltb (PrimFloat.abs x) d = false.
Proof.
  rewrite !FloatAxioms.ltb_spec, FloatAxioms.abs_spec.
  change (Prim2SF 0) with (S754_zero false). unfold SFltb.
  destruct (Prim2SF x) as [sx|sx| |sx mx ex], (Prim2SF d) as [sd|sd| |sd md ed];
    simpl; try done; by destruct sd.
Qed.

(** A float that is not equal to itself is NaN, and a difference with NaN
    is below no bound. *)
Lemma float_sub_nan_ltb (v e d : float) :
  PrimFloat.eqb e e = false →
  PrimFloat.ltb (PrimFloat.abs (PrimFloat.sub v e)) d = false.
Proof.
  rewrite FloatAxioms.eqb_spec, FloatAxioms.ltb_spec, FloatAxioms.abs_spec,
    FloatAxioms.sub_spec.
  unfold SFeqb, SFltb, SF64sub.
  destruct (Prim2SF e) as [se|se| |se me ee]; simpl.
  - done.
  - by destruct se.
  - intros _. by destruct (Prim2SF v).
  - destruct se; rewrite Z.compare_refl;
      fold (Pos.compare me me); by rewrite Pos.compare_refl.
Qed.

(** ** More on [line_near] *)

Lemma for_fold_first_exception {A S} (body : S → A → result S)
    (l1 l2 : list A) (x : A) (acc : S) (e : exn) :
  (∀ acc' y, y ∈ l1 → is_ok (body acc' y)) →
  (∀ acc', body acc' x = inl e) →
  for_fold body acc (l1 ++ x :: l2) = inl e.
Proof.
  intros Hl1 Hx. revert acc. induction l1 as [|y l1 IH]; intros acc; simpl.
  - by rewrite Hx.
  - destruct (Hl1 acc y) as [acc' Hacc]; [left|]. rewrite Hacc. simpl.
    apply IH. intros acc'' y' Hy'. apply Hl1. by right.
Qed.

Lemma omap_all_None {A B} (f : A → option B) (l : list A) :
  (∀ x, x ∈ l → f x = None) → omap f l = [].
Proof.
  induction l as [|x l IH]; intros Hl; csimpl; [done|].
  rewrite (Hl x) by left. apply IH. intros y Hy. apply Hl. by right.
Qed.

Lemma omap_sublist_impl {A B} (f g : A → option B) (l : list A) :
  (∀ x y, x ∈ l → f x = Some y → g x = Some y) →
  omap f l `sublist_of` omap g l.
Proof.
  induction l as [|x l IH]; intros Hfg; csimpl; [done|].
  assert (omap f l `sublist_of` omap g l) as Hl.
  { apply IH. intros x' y Hx'. apply Hfg. by right. }
  destruct (f x) as [y|] eqn:Hf.
  - rewrite (Hfg x y) by (done || left). by apply sublist_skip.
  - destruct (g x); [by apply sublist_cons|done].
Qed.

Section More_line_near.
Variable XRAYLIB_MAP : gmap string (gmap string Z * xfunc).
Variable OTHER_VAL : gmap ident elem_dict.

(** X11. [line_near] raises the exception of the first emission-line key,
    in the order of the keys, whose line energy or cross section raises;
    at that key the line energy is computed first, so its exception is the
    one raised when both raise. *)
Theorem line_near_first_exception (self : Element)
    (energy delta_e incident_energy : float) (l1 l2 : list string)
    (k : string) :
  XrayLibWrap_iter (Element_emission_line self) = l1 ++ k :: l2 →
  (∀ k', k' ∈ l1 →
     is_ok (XrayLibWrap_getitem (Element_emission_line self) k') ∧
     is_ok (Element_cs_getitem XRAYLIB_MAP self incident_energy k')) →
  (∀ e, XrayLibWrap_getitem (Element_emission_line self) k = inl e →
     Element_line_near XRAYLIB_MAP self energy delta_e incident_energy
       = inl e) ∧
  (∀ e, is_ok (XrayLibWrap_getitem (Element_emission_line self) k) →
     Element_cs_getitem XRAYLIB_MAP self incident_energy k = inl e →
     Element_line_near XRAYLIB_MAP self energy delta_e incident_energy
       = inl e).
Proof.
  intros Hkeys Hl1. unfold Element_line_near. rewrite Hkeys.
  assert (∀ acc' k',
            k' ∈ l1 →
            is_ok (let! v := XrayLibWrap_getitem (Element_emission_line self)
                               k' in
                   line_near_body XRAYLIB_MAP self energy delta_e
                     incident_energy acc' k' v)) as Hok.
  { intros acc' k' [[v Hv] [c Hc]]%Hl1. rewrite Hv. simpl.
    unfold line_near_body. rewrite Hc. simpl.
    destruct (PrimFloat.eqb c 0); [by eexists|].
    destruct (PrimFloat.ltb _ _); by eexists. }
  split.
  - intros e He. apply for_fold_first_exception; [done|].
    intros acc'. by rewrite He.
  - intros e [v Hv] He. apply for_fold_first_exception; [done|].
    intros acc'. rewrite Hv. simpl. unfold line_near_body. by rewrite He.
Qed.

(** X12. When the line energy and the cross section of every
    emission-line key are computed, what [line_near] returns is a sublist
    of [self.emission_line.all]: pairs of a line and its energy, none
    changed, none added, in the same order. *)
Theorem line_near_sublist_all (element : ident) (self : Element)
    (energy delta_e incident_energy : float) :
  Element_init XRAYLIB_MAP OTHER_VAL element = inr self →
  (∀ k, k ∈ XrayLibWrap_iter (Element_emission_line self) →
        is_ok (XrayLibWrap_getitem (Element_emission_line self) k) ∧
        is_ok (Element_cs_getitem XRAYLIB_MAP self incident_energy k)) →
  ∃ out_dict lines,
    Element_line_near XRAYLIB_MAP self energy delta_e incident_energy
      = inr out_dict ∧
    XrayLibWrap_all (Element_emission_line self) = inr lines ∧
    out_dict `sublist_of` lines.
Proof.
  intros Hinit Hok.
  destruct (items_ok (XrayLibWrap_getitem (Element_emission_line self))
              (XrayLibWrap_iter (Element_emission_line self)))
    as [lines Hlines].
  { intros k Hk. by apply Hok. }
  eexists _, lines. split; [by eapply Element_line_near_ok|].
  split; [done|].
  apply items_inr in Hlines as [Hkeys Hvals]. rewrite <-Hkeys.
  clear Hkeys Hok. induction Hvals as [|[k v] lines Hv _ IH]; csimpl; [done|].
  unfold line_near_keep at 1. simpl in Hv. rewrite Hv.
  destruct (Element_cs_getitem _ _ _ _) as [|c]; [by apply sublist_cons|].
  destruct (PrimFloat.eqb c 0); [by apply sublist_cons|].
  destruct (PrimFloat.ltb _ _); [by apply sublist_skip|by apply sublist_cons].
Qed.

(** X13. With a tolerance [delta_e] that is not above zero (zero, negative
    or NaN), or with a NaN [energy], no line is near: when the line energy
    and the cross section of every emission-line key are computed,
    [line_near] returns the empty dict. *)
Theorem line_near_empty (element : ident) (self : Element)
    (energy delta_e incident_energy : float) :
  Element_init XRAYLIB_MAP OTHER_VAL element = inr self →
  (∀ k, k ∈ XrayLibWrap_iter (Element_emission_line self) →
        is_ok (XrayLibWrap_getitem (Element_emission_line self) k) ∧
        is_ok (Element_cs_getitem XRAYLIB_MAP self incident_energy k)) →
  PrimFloat.ltb 0 delta_e = false ∨ PrimFloat.eqb energy energy = false →
  Element_line_near XRAYLIB_MAP self energy delta_e incident_energy = inr [].
Proof.
  intros Hinit Hok Hedge.
  rewrite (Element_line_near_ok _ _ _ _ _ _ _ Hinit Hok).
  f_equal. apply omap_all_None. intros k _. unfold line_near_keep.
  destruct (XrayLibWrap_getitem _ _) as [|v]; [done|].
  destruct (Element_cs_getitem _ _ _ _) as [|c]; [done|].
  destruct (PrimFloat.eqb c 0); [done|].
  destruct Hedge as [Hdelta|Hnan].
  - by rewrite float_abs_ltb_nonpos.
  - by rewrite float_sub_nan_ltb.
Qed.

(** X14. A larger tolerance never loses a line: for [delta1 <= delta2],
    when the line energy and the cross section of every emission-line key
    are computed, the dict returned for [delta1] is a sublist of the dict
    returned for [delta2], and every line in the former is in the latter
    with the same energy. *)
Theorem line_near_monotone (element : ident) (self : Element)
    (energy delta1 delta2 incident_energy : float) :
  Element_init XRAYLIB_MAP OTHER_VAL element = inr self →
  (∀ k, k ∈ XrayLibWrap_iter (Element_emission_line self) →
        is_ok (XrayLibWrap_getitem (Element_emission_line self) k) ∧
        is_ok (Element_cs_getitem XRAYLIB_MAP self incident_energy k)) →
  PrimFloat.leb delta1 delta2 = true →
  ∃ out1 out2,
    Element_line_near XRAYLIB_MAP self energy delta1 incident_energy
      = inr out1 ∧
    Element_line_near XRAYLIB_MAP self energy delta2 incident_energy
      = inr out2 ∧
    out1 `sublist_of` out2 ∧
    ∀ k v, dict_get out1 k = Some v → dict_get out2 k = Some v.
Proof.
  intros Hinit Hok Hle.
  assert (∀ k kv,
            line_near_keep XRAYLIB_MAP self energy delta1 incident_energy k
              = Some kv →
            line_near_keep XRAYLIB_MAP self energy delta2 incident_energy k
              = Some kv) as Hkeep.
  { intros k kv. unfold line_near_keep.
    destruct (XrayLibWrap_getitem _ _) as [|v]; [done|].
    destruct (Element_cs_getitem _ _ _ _) as [|c]; [done|].
    destruct (PrimFloat.eqb c 0); [done|].
    destruct (PrimFloat.ltb _ delta1) eqn:Hnear; [|done].
    by rewrite (float_ltb_leb_trans _ _ _ Hnear Hle). }
  eexists _, _.
  split; [by eapply Element_line_near_ok|].
  split; [by eapply Element_line_near_ok|].
  split.
  - apply omap_sublist_impl. intros k kv _. apply Hkeep.
  - intros k v.
    rewrite !dict_get_omap by apply line_near_keep_key.
    destruct (decide _); [|done].
    destruct (line_near_keep XRAYLIB_MAP self energy delta1 incident_energy k)
      as [kv|] eqn:Hk; [|done].
    by rewrite (Hkeep _ _ Hk).
Qed.

End More_line_near.

(** ** [Element.__repr__] *)

Lemma str_app_cons (c : ascii) (s t : string) :
  String c s +:+ t = String c (s +:+ t).
Proof. done. Qed.

Lemma str_app_assoc (s t u : string) : (s +:+ t) +:+ u = s +:+ (t +:+ u).
Proof.
  induction s as [|c s IH]; [done|]. by rewrite !str_app_cons, IH.
Qed.

Lemma str_length_app (s t : string) :
  String.length (s +:+ t) = String.length s + String.length t.
Proof.
  induction s as [|c s IH]; [done|]. rewrite str_app_cons. simpl.
  by rewrite IH.
Qed.

Lemma str_app_inj_r (s1 s2 t : string) : s1 +:+ t = s2 +:+ t → s1 = s2.
Proof.
  revert s2. induction s1 as [|c1 s1 IH]; intros [|c2 s2] Heq; [done|..].
  - apply (f_equal String.length) in Heq.
    rewrite !str_length_app in Heq. simpl in Heq. lia.
  - apply (f_equal String.length) in Heq.
    rewrite !str_length_app in Heq. simpl in Heq. lia.
  - rewrite !str_app_cons in Heq. injection Heq as -> Heq.
    by rewrite (IH _ Heq).
Qed.

Lemma space_free_cons (c : ascii) (p : string) :
  c ≠ " "%char → space_free p → space_free (String c p).
Proof.
  intros Hc Hp [|c' s] t; rewrite ?str_app_cons.
  - intros [= -> _]. done.
  - intros [= _ ->]. by eapply Hp.
Qed.

Lemma space_free_pretty_N_go (x : N) (s : string) :
  space_free s → space_free (pretty_N_go x s).
Proof.
  revert s. induction (N.lt_wf_0 x) as [x _ IH]; intros s Hs.
  assert (x = 0 ∨ 0 < x)%N as [->|Hx] by lia.
  - by rewrite pretty_N_go_0.
  - rewrite pretty_N_go_step by done. apply IH; [by apply N.div_lt|].
    apply space_free_cons; [|done].
    unfold pretty_N_char. by repeat case_match.
Qed.

Lemma space_free_pretty_Z (z : Z) : space_free (pretty z).
Proof.
  assert (space_free "") as Hnil by (by intros [|??] ?).
  assert (∀ p : positive, space_free (pretty p)) as Hpos.
  { intros p. unfold pretty, pretty_positive, pretty, pretty_N.
    case_decide; [done|]. by apply space_free_pretty_N_go. }
  destruct z as [|p|p]; unfold pretty, pretty_Z.
  - by apply space_free_cons.
  - apply Hpos.
  - apply (space_free_cons "-"); [done|]. apply Hpos.
Qed.

(** A string is split in one way at its last space. *)
Lemma str_split_last_space (s1 s2 p1 p2 : string) :
  space_free p1 → space_free p2 →
  s1 +:+ String " " p1 = s2 +:+ String " " p2 →
  s1 = s2 ∧ p1 = p2.
Proof.
  intros Hp1 Hp2. revert s2.
  induction s1 as [|c1 s1 IH]; intros [|c2 s2]; rewrite ?str_app_cons.
  - by intros [= ->].
  - intros [= _ Heq]. by destruct (Hp1 s2 p2).
  - intros [= _ Heq]. by destruct (Hp2 s1 p1).
  - intros [= -> Heq]. destruct (IH _ Heq) as [-> ->]. done.
Qed.

(** X16. [repr] tells elements apart by name and atomic number, and by
    nothing else: two elements have the same [repr] exactly when they have
    the same name and the same atomic number. *)
Theorem Element_repr_inj (a b : Element) :
  Element_repr a = Element_repr b ↔
  Element_name a = Element_name b ∧ Element_Z a = Element_Z b.
Proof.
  unfold Element_repr, Element_Z. split.
  - intros Heq. apply (inj (String.app "Element name ")) in Heq.
    change (" with atomic Z " +:+ pretty (_z a))
      with (" with atomic Z" +:+ String " " (pretty (_z a))) in Heq.
    change (" with atomic Z " +:+ pretty (_z b))
      with (" with atomic Z" +:+ String " " (pretty (_z b))) in Heq.
    rewrite <-!str_app_assoc in Heq.
    apply str_split_last_space in Heq as [Hname Hz];
      [|apply space_free_pretty_Z..].
    split; [by eapply str_app_inj_r|by apply (inj pretty)].
  - by intros [-> ->].
Qed.

(** ** Assigning the incident energy and constructing anew *)

(** X15. Assigning [incident_energy] turns an [XrayLibWrap_Energy] into
    what the constructor returns for the new energy: the property reads
    the assigned value, the keys and [len] are as before, and [l[key]] and
    [l.all] are those of a lookup constructed with that energy for the
    same element and category. *)
Theorem incident_energy_as_constructed
    (XRAYLIB_MAP : gmap string (gmap string Z * xfunc)) (z : Z)
    (cat : string) (e val : float) (w : XrayLibWrap_Energy) (σ : store)
    (l : positive) (key : string) :
  XrayLibWrap_Energy_init XRAYLIB_MAP z cat e = inr w →
  σ !! l = Some (WrapEnergy w) →
  XrayLibWrap_Energy_init XRAYLIB_MAP z cat val
    = inr (set_incident_energy w val) ∧
  incident_energy (set_incident_energy w val) = val ∧
  eval (obj_set_incident_energy l val;; obj_getitem l key) σ
    = (let! w' := XrayLibWrap_Energy_init XRAYLIB_MAP z cat val in
       XrayLibWrap_Energy_getitem w' key) ∧
  eval (obj_set_incident_energy l val;; obj_all l) σ
    = (let! w' := XrayLibWrap_Energy_init XRAYLIB_MAP z cat val in
       XrayLibWrap_Energy_all w') ∧
  eval (obj_set_incident_energy l val;; obj_keys l) σ = eval (obj_keys l) σ ∧
  eval (obj_set_incident_energy l val;; obj_len l) σ = eval (obj_len l) σ.
Proof.
  intros (b & Hb & ->)%XrayLibWrap_Energy_init_inr Hl.
  assert (XrayLibWrap_Energy_init XRAYLIB_MAP z cat val
          = inr (set_incident_energy (mk_XrayLibWrap_Energy b e) val))
    as Hnew.
  { apply XrayLibWrap_Energy_init_inr. by exists b. }
  assert (∀ A (m : prog A),
            eval (obj_set_incident_energy l val;; m) σ
            = eval m (<[l:=WrapEnergy
                             (set_incident_energy
                                (mk_XrayLibWrap_Energy b e) val)]> σ))
    as Hthen.
  { intros A m. by rewrite eval_bind, (run_set_incident_energy _ _ _ _ Hl). }
  rewrite !Hthen, Hnew.
  erewrite eval_getitem, eval_all, eval_keys, eval_len
    by apply lookup_insert_eq.
  by rewrite (eval_keys _ _ _ Hl), (eval_len _ _ _ Hl).
Qed.

(** ** [line_near] without the category 'cs' *)

(** X17. An element is constructed without the category 'cs', but
    [line_near] needs it as soon as there is an emission line: without
    'cs' in [XRAYLIB_MAP], [line_near] returns the empty dict when the
    element has no emission-line key, and raises [KeyError] with 'cs' when
    the line energy of the first key is computed. *)
Theorem line_near_without_cs
    (XRAYLIB_MAP : gmap string (gmap string Z * xfunc)) (self : Element)
    (energy delta_e incident_energy : float) :
  XRAYLIB_MAP !! "cs" = None →
  (XrayLibWrap_iter (Element_emission_line self) = [] →
   Element_line_near XRAYLIB_MAP self energy delta_e incident_energy
     = inr []) ∧
  (∀ k l, XrayLibWrap_iter (Element_emission_line self) = k :: l →
     is_ok (XrayLibWrap_getitem (Element_emission_line self) k) →
     Element_line_near XRAYLIB_MAP self energy delta_e incident_energy
       = inl (KeyError (IdStr "cs"))).
Proof.
  intros Hcs. unfold Element_line_near. split.
  - by intros ->.
  - intros k l -> [v Hv]. simpl. rewrite Hv. simpl.
    unfold line_near_body, Element_cs_getitem, Element_cs,
      XrayLibWrap_Energy_init, XrayLibWrap_init.
    by rewrite (subscript_None _ _ _ Hcs).
Qed.

(** ** The sample tables again *)

Lemma Sample_line_dict_lower (k : string) :
  is_Some (Sample.line_dict !! k) → lower k = k.
Proof.
  intros [c Hc]. unfold Sample.line_dict in Hc. simpl in Hc.
  repeat (apply lookup_insert_Some in Hc as [[<- _]|[_ Hc]]; [done|]).
  by rewrite lookup_empty in Hc.
Qed.

Lemma Sample_fe_cs_new :
  new_object Sample.XRAYLIB_MAP 26 "cs" (Some 10%float) = inr Sample.fe_cs.
Proof. vm_compute. reflexivity. Qed.

Lemma Sample_cs_category :
  Sample.XRAYLIB_MAP !! "cs"
    = Some (Sample.line_dict, Func3 Sample.CS_FluorLine).
Proof. vm_compute. reflexivity. Qed.

Lemma getitem_calls_function_witness :
  Sample.XRAYLIB_MAP !! "cs"
    = Some (Sample.line_dict, Func3 Sample.CS_FluorLine) ∧
  new_object Sample.XRAYLIB_MAP 26 "cs" (Some 10%float) = inr Sample.fe_cs ∧
  Sample.line_dict !! lower "KB1" = Some 2%Z ∧
  object_getitem Sample.fe_cs "KB1"
    = lookup_call (Func3 Sample.CS_FluorLine) 26 (Some 10%float) 2.
Proof.
  assert (Sample.line_dict !! lower "KB1" = Some 2%Z) as Hc
    by (vm_compute; reflexivity).
  split_and!; [exact Sample_cs_category|exact Sample_fe_cs_new|done|].
  exact (getitem_calls_function Sample.XRAYLIB_MAP 26 "cs" (Some 10%float)
           Sample.fe_cs Sample.line_dict (Func3 Sample.CS_FluorLine) "KB1" 2
           Sample_cs_category Sample_fe_cs_new Hc).
Defined.

Lemma len_dict_size_witness :
  Sample.XRAYLIB_MAP !! "cs"
    = Some (Sample.line_dict, Func3 Sample.CS_FluorLine) ∧
  new_object Sample.XRAYLIB_MAP 26 "cs" (Some 10%float) = inr Sample.fe_cs ∧
  object_len Sample.fe_cs = size Sample.line_dict ∧
  length (object_keys Sample.fe_cs) = size Sample.line_dict.
Proof.
  split_and!; [exact Sample_cs_category|exact Sample_fe_cs_new|..];
    apply (len_dict_size Sample.XRAYLIB_MAP 26 "cs" (Some 10%float)
             Sample.fe_cs Sample.line_dict (Func3 Sample.CS_FluorLine)
             Sample_cs_category Sample_fe_cs_new).
Defined.

Lemma listed_key_own_code_witness :
  Sample.XRAYLIB_MAP !! "cs"
    = Some (Sample.line_dict, Func3 Sample.CS_FluorLine) ∧
  new_object Sample.XRAYLIB_MAP 26 "cs" (Some 10%float) = inr Sample.fe_cs ∧
  (∀ k', is_Some (Sample.line_dict !! k') → lower k' = k') ∧
  "ka2" ∈ object_keys Sample.fe_cs ∧
  ∃ c, Sample.line_dict !! "ka2" = Some c ∧
       object_getitem Sample.fe_cs "ka2"
         = lookup_call (Func3 Sample.CS_FluorLine) 26 (Some 10%float) c.
Proof.
  assert ("ka2" ∈ object_keys Sample.fe_cs) as Hk
    by (apply (bool_decide_unpack _); vm_compute; exact I).
  split_and!; [exact Sample_cs_category|exact Sample_fe_cs_new
              |exact Sample_line_dict_lower|done|].
  exact (listed_key_own_code Sample.XRAYLIB_MAP 26 "cs" (Some 10%float)
           Sample.fe_cs Sample.line_dict (Func3 Sample.CS_FluorLine) "ka2"
           Sample_cs_category Sample_fe_cs_new Sample_line_dict_lower Hk).
Defined.

Lemma listed_key_not_lower_case_witness :
  Sample.mixed_case_map !! "lines"
    = Some (list_to_map [("Ka1", 0%Z)], Func2 Sample.LineEnergy) ∧
  new_object Sample.mixed_case_map 30 "lines" None
    = inr Sample.mixed_case_lines ∧
  (list_to_map [("Ka1", 0%Z)] : gmap string Z) !! "Ka1" = Some 0%Z ∧
  "Ka1" ∈ object_keys Sample.mixed_case_lines ∧
  object_getitem Sample.mixed_case_lines "Ka1"
    = inl (KeyError (IdStr (lower "Ka1"))) ∧
  object_contains Sample.mixed_case_lines "Ka1" = inr false.
Proof.
  assert (Sample.mixed_case_map !! "lines"
          = Some (list_to_map [("Ka1", 0%Z)], Func2 Sample.LineEnergy))
    as Hcat by (vm_compute; reflexivity).
  assert (new_object Sample.mixed_case_map 30 "lines" None
          = inr Sample.mixed_case_lines) as Hnew by (vm_compute; reflexivity).
  assert ((list_to_map [("Ka1", 0%Z)] : gmap string Z) !! "Ka1" = Some 0%Z)
    as Hc by (vm_compute; reflexivity).
  assert ((list_to_map [("Ka1", 0%Z)] : gmap string Z) !! lower "Ka1" = None)
    as Hnone by (vm_compute; reflexivity).
  pose proof (listed_key_not_lower_case Sample.mixed_case_map 30 "lines" None
                Sample.mixed_case_lines (list_to_map [("Ka1", 0%Z)])
                (Func2 Sample.LineEnergy) "Ka1" 0 Hcat Hnew Hc) as Hthm.
  destruct Hthm as (Hk & Hlower & _).
  destruct (Hlower Hnone) as (Hget & Hin & _).
  exact (conj Hcat (conj Hnew (conj Hc (conj Hk (conj Hget Hin))))).
Defined.

Lemma Sample_partial_keys :
  object_keys Sample.zn_partial_lines = ["ka1"] ++ "ka2" :: ["kb1"].
Proof. reflexivity. Qed.

Lemma all_first_exception_witness :
  object_keys Sample.zn_partial_lines = ["ka1"] ++ "ka2" :: ["kb1"] ∧
  (∀ k', k' ∈ ["ka1"] → is_ok (object_getitem Sample.zn_partial_lines k')) ∧
  object_getitem Sample.zn_partial_lines "ka2" = inl (XrayLibError 7) ∧
  object_all Sample.zn_partial_lines = inl (XrayLibError 7).
Proof.
  assert (∀ k', k' ∈ ["ka1"] →
                is_ok (object_getitem Sample.zn_partial_lines k')) as Hok.
  { intros k' ->%list_elem_of_singleton. by eexists. }
  assert (object_getitem Sample.zn_partial_lines "ka2"
          = inl (XrayLibError 7)) as Hraise by (vm_compute; reflexivity).
  split_and!; [exact Sample_partial_keys|done..|].
  exact (all_first_exception Sample.zn_partial_lines ["ka1"] ["kb1"] "ka2"
           (XrayLibError 7) Sample_partial_keys Hok Hraise).
Defined.

Lemma contains_and_get_witness :
  new_object Sample.XRAYLIB_MAP 30 "lines" None = inr Sample.zn_lines ∧
  (lower "Kc9" ∉ object_keys Sample.zn_lines) ∧
  object_contains Sample.zn_lines "Kc9" = inr false ∧
  object_get Sample.zn_lines "Kc9" (Some 1%float) = inr (Some 1%float) ∧
  object_contains Sample.zn_lines "KC9" = object_contains Sample.zn_lines "Kc9".
Proof.
  assert (new_object Sample.XRAYLIB_MAP 30 "lines" None
          = inr Sample.zn_lines) as Hnew by (vm_compute; reflexivity).
  assert (lower "Kc9" ∉ object_keys Sample.zn_lines) as Hkey
    by (apply (bool_decide_unpack _); vm_compute; exact I).
  assert (upper "Kc9" = Some "KC9") as HK by reflexivity.
  assert (is_ascii "Kc9" = true ∨ lower "KC9" = lower "Kc9") as Hascii
    by (left; reflexivity).
  pose proof (contains_and_get Sample.XRAYLIB_MAP 30 "lines" None
                Sample.zn_lines "Kc9" (Some 1%float) Hnew) as Hthm.
  destruct Hthm as (Hunknown & _ & Hupper).
  destruct (Hunknown Hkey) as [Hin Hget].
  destruct (Hupper "KC9" HK Hascii) as [Hin' _].
  exact (conj Hnew (conj Hkey (conj Hin (conj Hget Hin')))).
Defined.





Lemma Sample_zn_init_number :
  Element_init Sample.XRAYLIB_MAP Sample.OTHER_VAL (IdInt 30) = inr Sample.zn.
Proof. vm_compute. reflexivity. Qed.

Lemma Element_init_attributes_witness :
  Element_init Sample.XRAYLIB_MAP Sample.OTHER_VAL (IdStr "ZN")
    = inr Sample.zn ∧
  Element_name Sample.zn = "Zn" ∧
  new_object Sample.XRAYLIB_MAP (Element_Z Sample.zn) "binding_e" None
    = inr (Wrap (Element_bind_energy Sample.zn)).
Proof.
  pose proof (Element_init_attributes Sample.XRAYLIB_MAP Sample.OTHER_VAL
                (IdStr "ZN") Sample.zn Sample_zn_init) as Hthm.
  destruct Hthm as (_ & _ & Hbind & _).
  exact (conj Sample_zn_init (conj eq_refl Hbind)).
Defined.

Lemma Sample_cu_init :
  Element_init Sample.XRAYLIB_MAP Sample.OTHER_VAL (IdInt 29) = inr Sample.cu.
Proof. vm_compute. reflexivity. Qed.

Lemma Sample_filed_under_number : filed_under_number Sample.OTHER_VAL.
Proof. intros element d Hd. by apply Sample_table_consistent in Hd as [? _]. Qed.

Lemma Element_eq_constructed_witness :
  filed_under_number Sample.OTHER_VAL ∧
  Element_init Sample.XRAYLIB_MAP Sample.OTHER_VAL (IdStr "ZN")
    = inr Sample.zn ∧
  Element_init Sample.XRAYLIB_MAP Sample.OTHER_VAL (IdInt 29)
    = inr Sample.cu ∧
  (Element_eq Sample.zn Sample.cu = true ↔ Sample.zn = Sample.cu) ∧
  Element_eq Sample.zn Sample.cu = false ∧
  Sample.zn ≠ Sample.cu.
Proof.
  pose proof (Element_eq_constructed Sample.XRAYLIB_MAP Sample.OTHER_VAL
                (IdStr "ZN") (IdInt 29) Sample.zn Sample.cu
                Sample_filed_under_number Sample_zn_init Sample_cu_init)
    as Hthm.
  assert (Element_eq Sample.zn Sample.cu = false) as Hne by reflexivity.
  assert (Sample.zn ≠ Sample.cu) as Hneq.
  { intros Heq. apply Hthm in Heq. congruence. }
  exact (conj Sample_filed_under_number
           (conj Sample_zn_init (conj Sample_cu_init
              (conj Hthm (conj Hne Hneq))))).
Defined.

Lemma Sample_zn_partial_keys :
  XrayLibWrap_iter (Element_emission_line Sample.zn_partial)
    = ["ka1"] ++ "ka2" :: ["kb1"].
Proof. reflexivity. Qed.

Lemma Sample_zn_partial_ok (k' : string) :
  k' ∈ ["ka1"] →
  is_ok (XrayLibWrap_getitem (Element_emission_line Sample.zn_partial) k') ∧
  is_ok (Element_cs_getitem Sample.partial_map Sample.zn_partial 10 k').
Proof.
  intros ->%list_elem_of_singleton. split.
  - exists 8.5%float. vm_compute. reflexivity.
  - exists 1.5%float. vm_compute. reflexivity.
Qed.

Lemma Sample_zn_partial_ka2 :
  XrayLibWrap_getitem (Element_emission_line Sample.zn_partial) "ka2"
    = inl (XrayLibError 7).
Proof. vm_compute. reflexivity. Qed.

Lemma line_near_first_exception_witness :
  XrayLibWrap_iter (Element_emission_line Sample.zn_partial)
    = ["ka1"] ++ "ka2" :: ["kb1"] ∧
  (∀ k', k' ∈ ["ka1"] →
     is_ok (XrayLibWrap_getitem (Element_emission_line Sample.zn_partial) k') ∧
     is_ok (Element_cs_getitem Sample.partial_map Sample.zn_partial 10 k')) ∧
  Element_line_near Sample.partial_map Sample.zn_partial 8.5 0.5 10
    = inl (XrayLibError 7).
Proof.
  pose proof (line_near_first_exception Sample.partial_map Sample.zn_partial
                8.5 0.5 10 ["ka1"] ["kb1"] "ka2" Sample_zn_partial_keys
                Sample_zn_partial_ok) as Hthm.
  destruct Hthm as [Hline _].
  exact (conj Sample_zn_partial_keys
           (conj Sample_zn_partial_ok
              (Hline (XrayLibError 7) Sample_zn_partial_ka2))).
Defined.

Lemma line_near_sublist_all_witness :
  Element_init Sample.XRAYLIB_MAP Sample.OTHER_VAL (IdStr "ZN")
    = inr Sample.zn ∧
  (∀ k, k ∈ XrayLibWrap_iter (Element_emission_line Sample.zn) →
        is_ok (XrayLibWrap_getitem (Element_emission_line Sample.zn) k) ∧
        is_ok (Element_cs_getitem Sample.XRAYLIB_MAP Sample.zn 10 k)) ∧
  ∃ out_dict lines,
    Element_line_near Sample.XRAYLIB_MAP Sample.zn 8.5 0.5 10
      = inr out_dict ∧
    XrayLibWrap_all (Element_emission_line Sample.zn) = inr lines ∧
    out_dict `sublist_of` lines.
Proof.
  exact (conj Sample_zn_init
           (conj (Sample_zn_ok 10)
              (line_near_sublist_all Sample.XRAYLIB_MAP Sample.OTHER_VAL
                 (IdStr "ZN") Sample.zn 8.5 0.5 10 Sample_zn_init
                 (Sample_zn_ok 10)))).
Defined.

Lemma Sample_zero_tolerance :
  PrimFloat.ltb 0 0 = false ∨ PrimFloat.eqb 8.5 8.5 = false.
Proof. left. vm_compute. reflexivity. Qed.

Lemma line_near_empty_witness :
  Element_init Sample.XRAYLIB_MAP Sample.OTHER_VAL (IdStr "ZN")
    = inr Sample.zn ∧
  (∀ k, k ∈ XrayLibWrap_iter (Element_emission_line Sample.zn) →
        is_ok (XrayLibWrap_getitem (Element_emission_line Sample.zn) k) ∧
        is_ok (Element_cs_getitem Sample.XRAYLIB_MAP Sample.zn 10 k)) ∧
  (PrimFloat.ltb 0 0 = false ∨ PrimFloat.eqb 8.5 8.5 = false) ∧
  Element_line_near Sample.XRAYLIB_MAP Sample.zn 8.5 0 10 = inr [].
Proof.
  exact (conj Sample_zn_init
           (conj (Sample_zn_ok 10)
              (conj Sample_zero_tolerance
                 (line_near_empty Sample.XRAYLIB_MAP Sample.OTHER_VAL
                    (IdStr "ZN") Sample.zn 8.5 0 10 Sample_zn_init
                    (Sample_zn_ok 10) Sample_zero_tolerance)))).
Defined.

(** A NaN energy, on the sample tables. *)
Example line_near_nan_energy :
  Element_line_near Sample.XRAYLIB_MAP Sample.zn PrimFloat.nan 100 10
    = inr [].
Proof. vm_compute. reflexivity. Qed.

Lemma Sample_tolerances : PrimFloat.leb 0.25 0.5 = true.
Proof. vm_compute. reflexivity. Qed.

Lemma line_near_monotone_witness :
  Element_init Sample.XRAYLIB_MAP Sample.OTHER_VAL (IdStr "ZN")
    = inr Sample.zn ∧
  (∀ k, k ∈ XrayLibWrap_iter (Element_emission_line Sample.zn) →
        is_ok (XrayLibWrap_getitem (Element_emission_line Sample.zn) k) ∧
        is_ok (Element_cs_getitem Sample.XRAYLIB_MAP Sample.zn 10 k)) ∧
  PrimFloat.leb 0.25 0.5 = true ∧
  ∃ out1 out2,
    Element_line_near Sample.XRAYLIB_MAP Sample.zn 8.5 0.25 10 = inr out1 ∧
    Element_line_near Sample.XRAYLIB_MAP Sample.zn 8.5 0.5 10 = inr out2 ∧
    out1 `sublist_of` out2 ∧
    ∀ k v, dict_get out1 k = Some v → dict_get out2 k = Some v.
Proof.
  exact (conj Sample_zn_init
           (conj (Sample_zn_ok 10)
              (conj Sample_tolerances
                 (line_near_monotone Sample.XRAYLIB_MAP Sample.OTHER_VAL
                    (IdStr "ZN") Sample.zn 8.5 0.25 0.5 10 Sample_zn_init
                    (Sample_zn_ok 10) Sample_tolerances)))).
Defined.

Lemma Sample_zn_cs_5_init :
  XrayLibWrap_Energy_init Sample.XRAYLIB_MAP 30 "cs" 5 = inr Sample.zn_cs_5.
Proof. vm_compute. reflexivity. Qed.

Lemma Sample_two_lookups_1 :
  Sample.two_lookups !! 1%positive = Some (WrapEnergy Sample.zn_cs_5).
Proof. reflexivity. Qed.

Lemma incident_energy_as_constructed_witness :
  XrayLibWrap_Energy_init Sample.XRAYLIB_MAP 30 "cs" 5 = inr Sample.zn_cs_5 ∧
  Sample.two_lookups !! 1%positive = Some (WrapEnergy Sample.zn_cs_5) ∧
  XrayLibWrap_Energy_init Sample.XRAYLIB_MAP 30 "cs" 20
    = inr (set_incident_energy Sample.zn_cs_5 20) ∧
  eval (obj_set_incident_energy 1 20;; obj_keys 1) Sample.two_lookups
    = eval (obj_keys 1) Sample.two_lookups.
Proof.
  pose proof (incident_energy_as_constructed Sample.XRAYLIB_MAP 30 "cs" 5 20
                Sample.zn_cs_5 Sample.two_lookups 1 "ka1"
                Sample_zn_cs_5_init Sample_two_lookups_1) as Hthm.
  destruct Hthm as (Hnew & _ & _ & _ & Hkeys & _).
  exact (conj Sample_zn_cs_5_init
           (conj Sample_two_lookups_1 (conj Hnew Hkeys))).
Defined.

Lemma Sample_no_cs : Sample.no_cs_map !! "cs" = None.
Proof. vm_compute. reflexivity. Qed.

Lemma Sample_zn_first_key :
  XrayLibWrap_iter (Element_emission_line Sample.zn) = "ka1" :: ["ka2"; "kb1"].
Proof. reflexivity. Qed.

Lemma Sample_zn_ka1 :
  is_ok (XrayLibWrap_getitem (Element_emission_line Sample.zn) "ka1").
Proof. exists 8.5%float. vm_compute. reflexivity. Qed.

Lemma line_near_without_cs_witness :
  Sample.no_cs_map !! "cs" = None ∧
  Element_line_near Sample.no_cs_map Sample.zn 8.5 0.5 10
    = inl (KeyError (IdStr "cs")).
Proof.
  pose proof (line_near_without_cs Sample.no_cs_map Sample.zn 8.5 0.5 10
                Sample_no_cs) as Hthm.
  destruct Hthm as [_ Hraise].
  exact (conj Sample_no_cs
           (Hraise "ka1" ["ka2"; "kb1"] Sample_zn_first_key Sample_zn_ka1)).
Defined.

(** Construction on registries with a category missing. *)
Example Element_init_no_jump :
  Element_init Sample.no_jump_map Sample.OTHER_VAL (IdStr "Zn")
    = inl (KeyError (IdStr "jump")).
Proof. vm_compute. reflexivity. Qed.

Example Element_init_unknown :
  Element_init Sample.no_jump_map Sample.OTHER_VAL (IdStr "Xx")
    = inl (KeyError (IdStr "xx")).
Proof. vm_compute. reflexivity. Qed.

Example new_object_upper_case_category :
  new_object Sample.XRAYLIB_MAP 30 "LINES" None
    = inl (KeyError (IdStr "LINES")).
Proof. vm_compute. reflexivity. Qed.

(** The code of 'Ka1' is 1, but ['Ka1'] is read under 'ka1', code 0. *)
Example getitem_shadowed :
  (let! o := new_object Sample.shadowed_map 30 "lines" None in
   let! v := object_getitem o "Ka1" in ret (object_keys o, v))
  = inr (["Ka1"; "ka1"], 8.5%float).
Proof. vm_compute. reflexivity. Qed.

Example Element_repr_zn :
  Element_repr Sample.zn = "Element name Zn with atomic Z 30".
Proof. vm_compute. reflexivity. Qed.

(** The case mappings at Latin-1 letters: 'É' and 'é', 'ß' and 'SS', and
    'ÿ', whose upper-case form U+0178 is above 255. *)
Example lower_latin1 :
  lower (String "201" "A") = String "233" "a" ∧
  upper (String "233" "a") = Some (String "201" "A") ∧
  upper Sample.sharp_s = Some "SS" ∧ lower Sample.sharp_s = Sample.sharp_s ∧
  upper (String "255" "") = None.
Proof. by vm_compute. Qed.
